(** * Search-engine bindings: synchronisation core of [se.binding]

    A shallow embedding of [connector_search_engine/models/se_binding.py]:
    the binding entity with its [sync_state], the overridden ORM entry
    points [write] and [unlink], the work partitioner [_work_by_index],
    the recompute engine [recompute_json] and the two-pass [synchronize].

    The database is a finite map from binding ids to binding rows.  Every
    call the model passes up to the ORM base class ([super().write],
    [super().unlink]) and every capability it runs (exporter, deleter) is
    appended to a journal, so that statements about how often and in which
    order the persistence layer is hit can be made about the code itself. *)

From stdpp Require Import gmap strings list fin_maps pretty.

Open Scope Z_scope.

(** ** Data model *)

(** The [Selection] values of the field [sync_state]. *)
Inductive sync_state_t : Type :=
  | new | to_update | scheduled | done | to_be_checked.

Global Instance sync_state_eq_dec : EqDecision sync_state_t.
Proof. solve_decision. Defined.

(** Exceptions that leave the model. [UserError] is raised by the module
    itself, [MissingError] and [ValueError] by the ORM when a row that no
    longer exists is read or written, or when a field is read on several
    records at once; [BackendError] stands for whatever an exporter or a
    deleter lets escape. *)
Inductive exn : Type :=
  | UserError (msg : string)
  | MissingError (ids : list Z)
  | ValueError (msg : string)
  | BackendError (msg : string).

(** The usages under which capabilities are looked up on a work context. *)
Inductive usage : Type :=
  | se_export_mapper | se_record_exporter | record_exporter_deleter.

(** What [specific_backend.work_on(self._name, records=..., index=...)]
    hands to the loop body: the backend (the [collection] of the work
    context), the index and the records of the group. *)
Record work : Type := Work {
  w_collection : Z;
  w_index : Z;
  w_records : list Z }.

Global Instance work_eq_dec : EqDecision work.
Proof. solve_decision. Defined.

(** Python's truth value of the validator's answer: [None] and the empty
    string are false, every other string is true. *)
Definition truthy (error : option string) : bool :=
  match error with
  | None => false
  | Some msg => negb (String.eqb msg "")
  end.

(** [OrderedSet]: first occurrences, in order.  This is the order in which
    [mapped] on a many2one field lists the records it found. *)
Fixpoint unique (l : list Z) : list Z :=
  match l with
  | [] => []
  | x :: l' => x :: filter (λ y, y ≠ x) (unique l')
  end.

(** Recordset difference [self - other], order and repetitions of [self]
    kept. *)
Definition minus (self other : list Z) : list Z :=
  filter (λ i, i ∉ other) self.

(** [repr] of a list of integers, as [str.format] prints it. *)
Definition repr_ids (ids : list Z) : string :=
  "[" +:+ String.concat ", " (pretty <$> ids) +:+ "]".

(** The characters that end a number in [repr_ids]: the comma of the
    separator and the closing bracket.  A text is [plain] when it has
    none of them. *)
Definition closes (c : Ascii.ascii) : bool :=
  bool_decide (c ∈ String.list_ascii_of_string ",]").

Fixpoint plain (s : string) : bool :=
  match s with
  | EmptyString => true
  | String c s' => negb (closes c) && plain s'
  end.

(** A text is [closed] when it begins with such a character, and a [token]
    when it is plain and not empty. *)
Definition closed (t : string) : Prop :=
  match t with
  | EmptyString => False
  | String c _ => closes c
  end.

Definition token (s : string) : Prop := plain s ∧ s ≠ "".

Section se_binding.

(** The index document: an arbitrary payload that can be compared. *)
Context {doc : Type} `{!EqDecision doc}.

(** A row of [se.binding].  [se_backend_id] is a related field and is
    read through the index (see [se_backend_id] below). *)
Record binding : Type := Binding {
  index_id : Z;
  sync_state : sync_state_t;
  date_modified : option Z;
  date_syncronized : option Z;
  data : doc;
  active : bool }.

(** The dictionary passed to [write]: a key is either absent or carries
    the value to store. *)
Record vals : Type := Vals {
  v_index_id : option Z;
  v_sync_state : option sync_state_t;
  v_date_modified : option (option Z);
  v_date_syncronized : option (option Z);
  v_data : option doc;
  v_active : option bool }.

Definition no_vals : vals := Vals None None None None None None.

(** [vals["sync_state"] = st] and [{"data": d}] style updates. *)
Definition set_sync_state (st : sync_state_t) (v : vals) : vals :=
  Vals (v_index_id v) (Some st) (v_date_modified v)
       (v_date_syncronized v) (v_data v) (v_active v).

Definition set_data (d : doc) (v : vals) : vals :=
  Vals (v_index_id v) (v_sync_state v) (v_date_modified v)
       (v_date_syncronized v) (Some d) (v_active v).

(** The effect of storing [v] on one row. *)
Definition apply_vals (v : vals) (b : binding) : binding :=
  Binding (default (index_id b) (v_index_id v))
          (default (sync_state b) (v_sync_state v))
          (default (date_modified b) (v_date_modified v))
          (default (date_syncronized b) (v_date_syncronized v))
          (default (data b) (v_data v))
          (default (active b) (v_active v)).

(** What the journal records: the calls to [super().write] and
    [super().unlink], with the recordset and the dictionary they get, and
    the runs of exporters and deleters. *)
Inductive event : Type :=
  | OrmWrite (ids : list Z) (v : vals)
  | OrmUnlink (ids : list Z)
  | ComponentRun (u : usage) (w : work).

(** The transaction: the table and the journal of calls made so far. *)
Record db : Type := Db {
  rows : gmap Z binding;
  journal : list event }.

(** ** The monad of the model: state and exceptions *)

Inductive outcome (A : Type) : Type :=
  | Ok (a : A) (d : db)
  | Raise (e : exn) (d : db).
Arguments Ok {A} a d.
Arguments Raise {A} e d.

Definition M (A : Type) : Type := db → outcome A.

Definition ret {A} (a : A) : M A := λ d, Ok a d.

Definition bind {A B} (c : M A) (k : A → M B) : M B :=
  λ d, match c d with
       | Ok a d' => k a d'
       | Raise e d' => Raise e d'
       end.

Definition raise {A} (e : exn) : M A := λ d, Raise e d.

Notation "x <- c ;; k" := (bind c (λ x, k))
  (at level 100, c at next level, right associativity).
Notation "c ;; k" := (bind c (λ _, k))
  (at level 100, right associativity).

(** [for x in l: acc = body(x, acc)], the locals the body updates being
    threaded as [acc]. *)
Fixpoint for_each {A Acc} (l : list A) (body : A → Acc → M Acc)
    (acc : Acc) : M Acc :=
  match l with
  | [] => ret acc
  | x :: l' => acc' <- body x acc ;; for_each l' body acc'
  end.

(** ** The ORM operations the module relies on *)

(** [self.exists()] *)
Definition exists_ (self : list Z) : M (list Z) :=
  λ d, Ok (filter (λ i, is_Some (rows d !! i)) self) d.

(** Reading a field of one record: the row, or [MissingError]. *)
Definition read (i : Z) : M binding :=
  λ d, match rows d !! i with
       | Some b => Ok b d
       | None => Raise (MissingError [i]) d
       end.

(** [self.filtered(p)] *)
Fixpoint filtered (p : binding → bool) (self : list Z) : M (list Z) :=
  match self with
  | [] => ret []
  | i :: self' =>
      b <- read i ;;
      rest <- filtered p self' ;;
      ret (if p b then i :: rest else rest)
  end.

(** [self.mapped(f)] for a many2one field [f]. *)
Fixpoint mapped_list (f : binding → Z) (self : list Z) : M (list Z) :=
  match self with
  | [] => ret []
  | i :: self' =>
      b <- read i ;;
      rest <- mapped_list f self' ;;
      ret (f b :: rest)
  end.

Definition mapped (f : binding → Z) (self : list Z) : M (list Z) :=
  l <- mapped_list f self ;; ret (unique l).

Definition write_rows (ids : list Z) (v : vals)
    (m : gmap Z binding) : gmap Z binding :=
  foldr (λ i acc, alter (apply_vals v) i acc) m ids.

(** [super().write(vals)] of the base model. *)
Definition orm_write (self : list Z) (v : vals) : M bool :=
  λ d, match filter (λ i, rows d !! i = None) self with
       | [] => Ok true (Db (write_rows self v (rows d))
                           (journal d ++ [OrmWrite self v]))
       | missing => Raise (MissingError missing) d
       end.

(** [super().unlink()] of the base model. *)
Definition orm_unlink (self : list Z) : M bool :=
  λ d, Ok true (Db (foldr (λ i acc, delete i acc) (rows d) self)
                   (journal d ++ [OrmUnlink self])).

(** ** Parts of the environment that live outside the module

    [display_name] of a binding and [str(binding)]; the null value of the
    serialized field, which is what a field read on an empty recordset
    gives; of [se.index], the required [backend_id] and the code of
    [lang_id] when the index has a language. *)
Class Environment : Type := {
  display_name : Z → string;
  binding_str : Z → string;
  data_null : doc;
  backend_id : Z → Z;
  lang_code : Z → option string }.

Context `{!Environment}.

(** [se_backend_id = fields.Many2one(related="index_id.backend_id")] *)
Definition se_backend_id (b : binding) : Z := backend_id (index_id b).

(** ** [get_export_data] *)

(** [return self.data]: the field of the one record of [self]. *)
Definition get_export_data (self : list Z) : M doc :=
  match self with
  | [] => ret data_null
  | [i] => b <- read i ;; ret (data b)
  | _ => raise (ValueError "Expected singleton")
  end.

(** ** [write] *)

Definition deactivates (v : vals) : bool :=
  match v_active v with
  | Some a => negb a
  | None => false
  end.

Definition write (self : list Z) (v : vals) : M bool :=
  not_new <-
    (if deactivates v then
       not_new <- filtered (λ x, bool_decide (sync_state x ≠ new)) self ;;
       let new_vals := set_sync_state to_update v in
       orm_write not_new new_vals ;;
       ret not_new
     else ret []) ;;
  orm_write (minus self not_new) v.

(** ** [unlink] *)

(** The two messages, [_("...%s...") % self.display_name]; the translation
    function [_] is taken at the source language. *)
Definition _msg_cannot_delete_active (i : Z) : string :=
  "You cannot delete the binding '" +:+ display_name i
    +:+ "', unactivate it first.".

Definition _msg_cannot_delete_not_synchronized (i : Z) : string :=
  "You cannot delete the binding '" +:+ display_name i
    +:+ "', wait until it's synchronized.".

Definition unlink_check (record : Z) (_ : unit) : M unit :=
  r <- read record ;;
  if bool_decide (sync_state r = new)
     || (bool_decide (sync_state r = done) && negb (active r))
  then ret ()
  else if active r
  then raise (UserError (_msg_cannot_delete_active record))
  else raise (UserError (_msg_cannot_delete_not_synchronized record)).

Definition unlink (self : list Z) : M bool :=
  for_each self unlink_check () ;;
  orm_unlink self.

(** ** Capabilities looked up on the work context

    [work.component(usage=...)] resolves a capability by its usage.  The
    mapper and the validator are read-only: the mapper turns the business
    record behind a binding into a document, under the language of the
    index when it has one, and nothing in this module writes business
    records, so the document is a function of that language and of the
    binding; the validator of the backend collection answers with an
    error text or nothing.  The exporter and the deleter act on the table
    and may fail. *)
Class Components : Type := {
  map_record : option string → Z → doc;
  validate_record : Z → doc → option string;
  exporter_run : work → gmap Z binding → exn + gmap Z binding;
  deleter_run : work → gmap Z binding → exn + gmap Z binding }.

Context `{!Components}.

Definition run_component (u : usage)
    (run : work → gmap Z binding → exn + gmap Z binding)
    (w : work) : M unit :=
  λ d, let d' := Db (rows d) (journal d ++ [ComponentRun u w]) in
       match run w (rows d) with
       | inl e => Raise e d'
       | inr m => Ok () (Db m (journal d'))
       end.

(** ** [_work_by_index]

    A generator: the consumer's loop body runs between two steps of the
    generator, so the body is a parameter and each group is filtered on
    the table as the body of the previous group left it. *)
Definition _work_by_index {Acc} (self : list Z) (active_ : bool)
    (body : work → Acc → M Acc) (acc : Acc) : M Acc :=
  self <- exists_ self ;;
  backends <- mapped se_backend_id self ;;
  for_each backends (λ backend acc,
    indexes <- mapped index_id self ;;
    for_each indexes (λ index acc,
      bindings <- filtered (λ b,
        bool_decide (se_backend_id b = backend)
        && bool_decide (index_id b = index)
        && bool_decide (active b = active_)) self ;;
      body (Work backend index bindings) acc) acc) acc.

(** [list(self._work_by_index(active))] *)
Definition work_list (self : list Z) (active_ : bool) : M (list work) :=
  _work_by_index self active_ (λ w ws, ret (ws ++ [w])) [].

(** ** [recompute_json] *)

(** The line feed, ["\n"]. *)
Definition nl : string :=
  String (Ascii.Ascii false true false true false false false false) "".

(** The lists the loop of [recompute_json] appends to. *)
Record recompute_locals : Type := Locals {
  validation_errors : list string;
  to_be_checked_ids : list Z }.

Definition _recompute_json_work_ctx (w : work) : option string :=
  lang_code (w_index w).

Definition _validate_record (w : work) (index_record : doc)
    : option string :=
  validate_record (w_collection w) index_record.

(** The body of the inner loop, for one binding of the group.  [sudo()]
    changes access rights only and [with_context] reaches the mapper
    only, as the language it is given; [_logger.error] leaves nothing in
    the transaction.  [binding.data] and [binding.sync_state] are two
    reads of the row. *)
Definition recompute_binding (force_export : bool) (w : work)
    (binding : Z) (acc : recompute_locals) : M recompute_locals :=
  let index_record := map_record (_recompute_json_work_ctx w) binding in
  let error := _validate_record w index_record in
  if truthy error then
    let msg := binding_str binding +:+ ": " +:+ default "" error in
    ret (Locals (validation_errors acc ++ [msg])
                (to_be_checked_ids acc ++ [binding]))
  else
    b <- read binding ;;
    if bool_decide (data b ≠ index_record) || force_export then
      let vals := set_data index_record no_vals in
      b <- read binding ;;
      let vals := if bool_decide (sync_state b ≠ to_update)
                  then set_sync_state to_update vals else vals in
      write [binding] vals ;;
      ret acc
    else ret acc.

Definition recompute_json (self : list Z) (force_export : bool)
    : M string :=
  acc <- _work_by_index self true (λ w acc,
           for_each (w_records w) (recompute_binding force_export w) acc)
           (Locals [] []) ;;
  let result :=
    if bool_decide (validation_errors acc ≠ [])
    then ["Validation errors" +:+ nl
            +:+ String.concat nl (validation_errors acc)]
    else [] in
  (if bool_decide (to_be_checked_ids acc ≠ [])
   then write (to_be_checked_ids acc) (set_sync_state to_be_checked no_vals)
   else ret true) ;;
  ret (String.concat (nl +:+ nl) result).

(** ** [synchronize] *)

Definition synchronize (self : list Z) : M string :=
  export_ids <- _work_by_index self true (λ w export_ids,
      run_component se_record_exporter exporter_run w ;;
      ret (export_ids ++ w_records w)) [] ;;
  delete_ids <- _work_by_index self false (λ w delete_ids,
      run_component record_exporter_deleter deleter_run w ;;
      ret (delete_ids ++ w_records w)) [] ;;
  ret ("Exported ids : " +:+ repr_ids export_ids +:+ nl
         +:+ "Deleted ids : " +:+ repr_ids delete_ids).

(** ** What the operations compute, stated on the table

    The definitions below are not in the source: they describe, as plain
    functions of the table, the results the theorems compare the code
    with. *)

(** The rows [unlink] lets go. *)
Definition deletable (b : binding) : Prop :=
  sync_state b = new ∨ (sync_state b = done ∧ active b = false).

Global Instance deletable_dec (b : binding) : Decision (deletable b).
Proof. unfold deletable. apply _. Defined.

Definition deletable_in (m : gmap Z binding) (i : Z) : Prop :=
  ∃ b, m !! i = Some b ∧ deletable b.

(** The records a deactivating [write] moves to [to_update]: those not
    in state [new]. *)
Definition not_new_of (m : gmap Z binding) (self : list Z) : list Z :=
  filter (λ i, from_option (λ x, bool_decide (sync_state x ≠ new))
                 false (m !! i)) self.

(** The part of a row the partitioner reads. *)
Definition key (b : binding) : Z * bool := (index_id b, active b).

Definition keys (m : gmap Z binding) : gmap Z (Z * bool) := key <$> m.

Definition index_of (k : gmap Z (Z * bool)) (i : Z) : Z :=
  from_option fst 0 (k !! i).

Definition in_group (k : gmap Z (Z * bool)) (backend index : Z)
    (active_ : bool) (i : Z) : bool :=
  match k !! i with
  | Some (idx, act) =>
      bool_decide (backend_id idx = backend)
      && bool_decide (idx = index) && bool_decide (act = active_)
  | None => false
  end.

(** The groups of [self]: one per pair of a backend and an index met in
    the existing records of [self], backends first. *)
Definition groups (k : gmap Z (Z * bool)) (self : list Z)
    (active_ : bool) : list work :=
  let self := filter (λ i, is_Some (k !! i)) self in
  unique ((λ i, backend_id (index_of k i)) <$> self) ≫= λ backend,
    (λ index, Work backend index
                (filter (λ i, in_group k backend index active_ i) self))
      <$> unique (index_of k <$> self).

(** A loop body that leaves existence, index and [active] flag of every
    row alone. *)
Definition keeps_keys {Acc} (body : work → Acc → M Acc) : Prop :=
  ∀ w acc d acc' d',
    body w acc d = Ok acc' d' → keys (rows d') = keys (rows d).

(** An exporter or deleter that does its work: it returns, and leaves
    existence, index and [active] flag of every row alone. *)
Definition well_behaved
    (run : work → gmap Z binding → exn + gmap Z binding) : Prop :=
  ∀ w m, ∃ m', run w m = inr m' ∧ keys m' = keys m.

(** The table after a capability has been run on the groups [ws] in
    turn, or the exception of the first run that fails. *)
Fixpoint run_groups (run : work → gmap Z binding → exn + gmap Z binding)
    (ws : list work) (m : gmap Z binding) : exn + gmap Z binding :=
  match ws with
  | [] => inr m
  | w :: ws' =>
      match run w m with
      | inl e => inl e
      | inr m' => run_groups run ws' m'
      end
  end.

(** The records [_work_by_index] hands out: existing, in [self], with
    the wanted [active] flag. *)
Definition selected (m : gmap Z binding) (self : list Z)
    (active_ : bool) (i : Z) : Prop :=
  i ∈ self ∧ ∃ b, m !! i = Some b ∧ active b = active_.

(** The candidate document of a binding and the verdict on it. *)
Definition candidate (i : Z) (b : binding) : doc :=
  map_record (lang_code (index_id b)) i.

Definition verdict (i : Z) (b : binding) : option string :=
  validate_record (se_backend_id b) (candidate i b).

Definition rejected (i : Z) (b : binding) : bool := truthy (verdict i b).

Definition error_line (i : Z) (b : binding) : string :=
  binding_str i +:+ ": " +:+ default "" (verdict i b).

(** A row after the loop of [recompute_json] went over it. *)
Definition recomputed (force_export : bool) (i : Z) (b : binding)
    : binding :=
  if rejected i b then b
  else if bool_decide (data b ≠ candidate i b) || force_export
  then Binding (index_id b) to_update (date_modified b)
               (date_syncronized b) (candidate i b) (active b)
  else b.

(** A row after the whole call: the rejected ones are quarantined. *)
Definition recompute_row (force_export : bool) (i : Z) (b : binding)
    : binding :=
  if rejected i b
  then Binding (index_id b) to_be_checked (date_modified b)
               (date_syncronized b) (data b) (active b)
  else recomputed force_export i b.

(** The dictionary [recompute_json] writes on a row it refreshes. *)
Definition recompute_vals (i : Z) (b : binding) : vals :=
  let v := set_data (candidate i b) no_vals in
  if bool_decide (sync_state b ≠ to_update)
  then set_sync_state to_update v else v.

(** The dictionary of the closing write of [recompute_json]. *)
Definition quarantine_vals : vals := set_sync_state to_be_checked no_vals.

Definition on_rows (ids : list Z) (f : Z → binding → binding)
    (m : gmap Z binding) : gmap Z binding :=
  map_imap (λ i b, Some (if bool_decide (i ∈ ids) then f i b else b)) m.

(** The records the loop of [recompute_json] goes over, in order, and
    those among them whose candidate the validator refuses. *)
Definition processed (m : gmap Z binding) (self : list Z) : list Z :=
  groups (keys m) self true ≫= w_records.

Definition refused (m : gmap Z binding) (i : Z) : bool :=
  from_option (rejected i) false (m !! i).

Definition quarantined (m : gmap Z binding) (self : list Z) : list Z :=
  filter (λ i, refused m i) (processed m self).

Definition error_lines (m : gmap Z binding) (ids : list Z) : list string :=
  (λ i, from_option (error_line i) "" (m !! i))
    <$> filter (λ i, refused m i) ids.

(** The text [recompute_json] returns. *)
Definition report (m : gmap Z binding) (self : list Z) : string :=
  let lines := error_lines m (processed m self) in
  match lines with
  | [] => ""
  | _ => "Validation errors" +:+ nl +:+ String.concat nl lines
  end.

(** The closing write: one, for all refused records, or none. *)
Definition quarantine_events (m : gmap Z binding) (self : list Z)
    : list event :=
  match quarantined m self with
  | [] => []
  | ids => [OrmWrite ids quarantine_vals]
  end.

(** A journal entry of the loop: a write on one record that passed
    validation, carrying its candidate as [data], possibly
    [sync_state = to_update], and nothing else. *)
Definition refresh_event (m : gmap Z binding) (ids : list Z)
    (e : event) : Prop :=
  ∃ i b s, i ∈ ids ∧ m !! i = Some b ∧ rejected i b = false
    ∧ (s = None ∨ s = Some to_update)
    ∧ e = OrmWrite [i] (Vals None s None None (Some (candidate i b)) None).

(** Replaying a journal on a table. *)
Definition replay_event (e : event) (m : gmap Z binding)
    : gmap Z binding :=
  match e with
  | OrmWrite ids v => write_rows ids v m
  | OrmUnlink ids => foldr (λ i acc, delete i acc) m ids
  | ComponentRun _ _ => m
  end.

Definition replay (es : list event) (m : gmap Z binding)
    : gmap Z binding :=
  foldl (λ acc e, replay_event e acc) m es.

(** Every write of the journal [es], replayed from [m], that stores a
    document leaves the rows it touches in state [to_update]. *)
Fixpoint data_writes_flagged (m : gmap Z binding) (es : list event)
    : Prop :=
  match es with
  | [] => True
  | e :: es' =>
      match e with
      | OrmWrite ids v =>
          is_Some (v_data v) →
          ∀ i b, i ∈ ids → replay_event e m !! i = Some b →
                 sync_state b = to_update
      | _ => True
      end ∧ data_writes_flagged (replay_event e m) es'
  end.

(** What one pass of the loop body over record [i] adds to the journal,
    [b] being the row of [i] at that moment. *)
Definition refresh_events (force_export : bool) (i : Z) (b : binding)
    : list event :=
  if negb (rejected i b)
     && (bool_decide (data b ≠ candidate i b) || force_export)
  then [OrmWrite [i] (recompute_vals i b)] else [].

(** The journal [es] of the loop of [recompute_json] after it went over
    the records [ids], from the table [m]. *)
Definition loop_journal (m : gmap Z binding) (force_export : bool)
    (ids : list Z) (es : list event) : Prop :=
  replay es m = on_rows ids (recomputed force_export) m
  ∧ data_writes_flagged m es
  ∧ Forall (refresh_event m ids) es
  ∧ (force_export = false →
     (∀ i b, i ∈ ids → m !! i = Some b → rejected i b = false →
             data b = candidate i b) →
     es = [])
  ∧ (force_export = true →
     ∀ i b, i ∈ ids → m !! i = Some b → rejected i b = false →
       ∃ s, OrmWrite [i] (Vals None s None None (Some (candidate i b)) None)
              ∈ es).

(** The state of the loop of [recompute_json] after the records [ids],
    started in [d0]. *)
Definition loop_inv (d0 : db) (force_export : bool) (ids : list Z)
    (acc : recompute_locals) (d : db) : Prop :=
  rows d = on_rows ids (recomputed force_export) (rows d0)
  ∧ validation_errors acc = error_lines (rows d0) ids
  ∧ to_be_checked_ids acc = filter (λ i, refused (rows d0) i) ids
  ∧ ∃ es, journal d = journal d0 ++ es
          ∧ loop_journal (rows d0) force_export ids es.

End se_binding.

Arguments binding : clear implicits.
Arguments vals : clear implicits.
Arguments event : clear implicits.
Arguments db : clear implicits.
Arguments Components : clear implicits.
Arguments Environment : clear implicits.
Arguments outcome : clear implicits.
Arguments Ok {doc A} a d.
Arguments Raise {doc A} e d.

(** ** [create] and [jobify_recompute_json]

    The job queue is a table of its own: a delayed call is a row of it,
    and the runner performs the call later. *)
Section dispatch.

Context {doc : Type} `{!EqDecision doc}.
Context `{!Environment doc} `{!Components doc}.

Notation "x <- c ;; k" := (bind c (λ x, k))
  (at level 100, c at next level, right associativity).

(** [self._name], the name of the binding model. *)
Class Model : Type := { _name : string }.

Context `{!Model}.

(** [record.with_delay(description=...).recompute_json(force_export=...)] *)
Record job : Type := Job {
  job_description : string;
  job_record : Z;
  job_force_export : bool }.

(** One delayed call per record of [self], appended to the queue in the
    order of [self].  [tracking_disable] only spares the chatter. *)
Definition jobify_recompute_json (self : list Z) (force_export : bool)
    (queue : list job) : list job :=
  let description :=
    "Recompute " +:+ _name +:+ " json and check if need update" in
  foldl (λ q record, q ++ [Job description record force_export]) queue self.

(** The runner performing a delayed call, and a list of them in turn. *)
Definition run_job (j : job) : M string :=
  recompute_json [job_record j] (job_force_export j).

Definition run_jobs (js : list job) : M (list string) :=
  for_each js (λ j texts, text <- run_job j ;; ret (texts ++ [text])) [].

(** [super().create(vals)]: [new_id] is the id the sequence of the table
    hands out.  The declarations of the fields give the rest:
    [sync_state] defaults to [new] and [active] to [True], the dates and
    [data] have no default, and [index_id] is required, so that a
    dictionary without it is refused, as is an id already taken. *)
Definition orm_create (new_id : Z) (v : vals doc) (d : db doc)
    : option (db doc) :=
  match v_index_id v, rows d !! new_id with
  | Some index, None =>
      Some (Db (<[new_id :=
                    Binding index
                      (default new (v_sync_state v))
                      (default None (v_date_modified v))
                      (default None (v_date_syncronized v))
                      (default data_null (v_data v))
                      (default true (v_active v))]> (rows d))
               (journal d))
  | _, _ => None
  end.

Definition create (new_id : Z) (v : vals doc) (d : db doc)
    (queue : list job) : option (Z * db doc * list job) :=
  match orm_create new_id v d with
  | Some d' => Some (new_id, d', jobify_recompute_json [new_id] false queue)
  | None => None
  end.

(** The existing records of [self] with the given [active] flag, as
    [_work_by_index] picks them. *)
Definition picked (m : gmap Z (binding doc)) (active_ : bool) (i : Z)
    : bool :=
  from_option (λ b, bool_decide (active b = active_)) false (m !! i).

End dispatch.

Arguments Model : clear implicits.
Arguments job : clear implicits.

(** ** A small installation, used to run the model

    Four bindings on two indexes of two backends, two of them inactive;
    the mapper gives an empty document for binding 2, which the validator
    refuses. *)
Module Sample.

Definition table : gmap Z (binding string) :=
  <[1 := Binding 10 done None None "a" true]>
  (<[2 := Binding 20 new None None "b" true]>
  (<[3 := Binding 10 done None None "c" false]>
  (<[4 := Binding 20 to_update None None "d" false]> ∅))).

#[global] Instance env : Environment string := {|
  display_name := λ i, "binding " +:+ pretty i;
  binding_str := λ i, "se.binding(" +:+ pretty i +:+ ",)";
  data_null := "";
  backend_id := λ i, i * 10;
  lang_code := λ i, if bool_decide (i = 20) then Some "fr_FR" else None |}.

Definition mark_done (w : work) (m : gmap Z (binding string))
    : exn + gmap Z (binding string) :=
  inr (write_rows (w_records w) (set_sync_state done no_vals) m).

#[global] Instance components : Components string := {|
  map_record := λ _ i, if bool_decide (i = 2) then "" else "doc";
  validate_record := λ _ d,
    if bool_decide (d = "") then Some "empty" else None;
  exporter_run := mark_done;
  deleter_run := mark_done |}.

Definition start : db string := Db table [].

(** The same installation with a backend that cannot be reached, for the
    exporter or for the deleter. *)
Definition down (w : work) (m : gmap Z (binding string))
    : exn + gmap Z (binding string) :=
  inl (BackendError "connection refused").

Definition exporter_down : Components string := {|
  map_record := map_record;
  validate_record := validate_record;
  exporter_run := down;
  deleter_run := mark_done |}.


(** A table whose one binding is quarantined although its document is
    the one the mapper gives. *)
Definition settled_table : gmap Z (binding string) :=
  {[ 5 := Binding 10 to_be_checked None None "doc" true ]}.

#[global] Instance model : Model := {| _name := "se.binding" |}.

End Sample.

(** * Properties *)

(** ** The monad and the ORM operations *)
Section orm_facts.

Context {doc : Type} `{!EqDecision doc}.
Implicit Types (d : db doc) (m : gmap Z (binding doc)).
Implicit Types (b : binding doc) (v : vals doc).
Implicit Types (self ids : list Z) (i j : Z).

Lemma bind_Ok {A B} (c : M A) (k : A → M B) d a d' :
  c d = Ok a d' → bind c k d = k a d'.
Proof. unfold bind. by intros ->. Qed.

Lemma bind_Raise {A B} (c : M A) (k : A → M B) d e d' :
  c d = Raise e d' → bind c k d = Raise e d'.
Proof. unfold bind. by intros ->. Qed.

Lemma bind_assoc {A B C} (c : M A) (k1 : A → M B) (k2 : B → M C) d :
  bind (bind c k1) k2 d = bind c (λ x, bind (k1 x) k2) d.
Proof. unfold bind. by destruct (c d). Qed.

Lemma bind_cong {A B} (c1 c2 : M A) (k1 k2 : A → M B) d :
  c1 d = c2 d →
  (∀ a d', c2 d = Ok a d' → k1 a d' = k2 a d') →
  bind c1 k1 d = bind c2 k2 d.
Proof.
  intros Hc Hk. unfold bind. rewrite Hc.
  destruct (c2 d) as [a d'|]; [|done]. by apply Hk.
Qed.

Lemma for_each_app {A Acc} (l1 l2 : list A) (body : A → Acc → M Acc)
    (acc : Acc) d :
  for_each (l1 ++ l2) body acc d
  = bind (for_each l1 body acc) (for_each l2 body) d.
Proof.
  revert acc d. induction l1 as [|x l1 IH]; intros acc d; [reflexivity|].
  simpl. unfold bind.
  destruct (body x acc d) as [a d1|e d1]; [|reflexivity].
  rewrite IH. reflexivity.
Qed.

(** A loop whose body keeps an invariant indexed by the items already
    seen runs to its end and establishes it for the whole list. *)
Lemma for_each_inv {A Acc} (I : list A → Acc → db doc → Prop)
    (body : A → Acc → M Acc) (l : list A) :
  (∀ pre x acc d, x ∈ l → I pre acc d →
     ∃ acc' d', body x acc d = Ok acc' d' ∧ I (pre ++ [x]) acc' d') →
  ∀ pre acc d, I pre acc d →
    ∃ acc' d', for_each l body acc d = Ok acc' d' ∧ I (pre ++ l) acc' d'.
Proof.
  induction l as [|x l IH]; intros Hstep pre acc d HI.
  - exists acc, d. by rewrite app_nil_r.
  - destruct (Hstep pre x acc d) as (acc1 & d1 & Hx & HI1);
      [apply list_elem_of_here | done |].
    destruct (IH (λ pre x acc d Hin, Hstep pre x acc d
                    (list_elem_of_further _ _ _ Hin))
                 (pre ++ [x]) acc1 d1 HI1) as (acc2 & d2 & Hl & HI2).
    exists acc2, d2. split.
    + simpl. by rewrite (bind_Ok _ _ _ _ _ Hx).
    + by rewrite <- app_assoc in HI2.
Qed.

(** A loop in a loop, with an invariant indexed by the inner items seen
    so far. *)
Lemma for_each_nested_inv {A B R} (P : list B → R → db doc → Prop)
    (g : A → list B) (body : A → B → R → M R) (l : list A) :
  (∀ seen x y r d, x ∈ l → y ∈ g x → P seen r d →
     ∃ r' d', body x y r d = Ok r' d' ∧ P (seen ++ [y]) r' d') →
  ∀ seen r d, P seen r d →
    ∃ r' d',
      for_each l (λ x r, for_each (g x) (body x) r) r d = Ok r' d'
      ∧ P (seen ++ (l ≫= g)) r' d'.
Proof.
  intros Hstep seen r d HP.
  assert (Hinner : ∀ pre x r1 d1, x ∈ l →
    P (seen ++ (pre ≫= g)) r1 d1 →
    ∃ r2 d2, for_each (g x) (body x) r1 d1 = Ok r2 d2
      ∧ P (seen ++ ((pre ++ [x]) ≫= g)) r2 d2).
  { intros pre x r1 d1 Hx HP1.
    assert (Hs : ∀ ys y r2 d2, y ∈ g x →
      P ((seen ++ (pre ≫= g)) ++ ys) r2 d2 →
      ∃ r3 d3, body x y r2 d2 = Ok r3 d3
        ∧ P ((seen ++ (pre ≫= g)) ++ ys ++ [y]) r3 d3).
    { intros ys y r2 d2 Hy HP2.
      destruct (Hstep _ x y r2 d2 Hx Hy HP2) as (r3 & d3 & ? & HP3).
      exists r3, d3. by rewrite app_assoc. }
    assert (HP0 : P ((seen ++ (pre ≫= g)) ++ []) r1 d1)
      by by rewrite app_nil_r.
    destruct (for_each_inv
                (λ ys r d, P ((seen ++ (pre ≫= g)) ++ ys) r d)
                (body x) (g x) Hs [] r1 d1 HP0)
      as (r2 & d2 & Hrun2 & HP2).
    exists r2, d2. split; [done|].
    rewrite bind_app. simpl. rewrite app_nil_r.
    by rewrite app_nil_l, <- app_assoc in HP2. }
  assert (HP0 : P (seen ++ ([] ≫= g)) r d) by by rewrite app_nil_r.
  destruct (for_each_inv (λ pre r d, P (seen ++ (pre ≫= g)) r d)
              (λ x r, for_each (g x) (body x) r) l Hinner [] r d HP0)
    as (r' & d' & Hrun & HP').
  by exists r', d'.
Qed.

Lemma read_Some d i b : rows d !! i = Some b → read i d = Ok b d.
Proof. unfold read. by intros ->. Qed.

Lemma read_None d i :
  rows d !! i = None → read i d = Raise (MissingError [i]) d.
Proof. unfold read. by intros ->. Qed.

Lemma filtered_ok (p : binding doc → bool) self d :
  (∀ i, i ∈ self → is_Some (rows d !! i)) →
  filtered p self d
  = Ok (filter (λ i, from_option p false (rows d !! i)) self) d.
Proof.
  induction self as [|i self IH]; intros Hex; [done|].
  destruct (Hex i) as [b Hb]; [apply list_elem_of_here|].
  simpl. rewrite (bind_Ok _ _ _ _ _ (read_Some _ _ _ Hb)).
  rewrite (bind_Ok _ _ _ _ _ (IH (λ j Hj, Hex j
             (list_elem_of_further _ _ _ Hj)))).
  unfold ret. rewrite filter_cons, Hb. simpl.
  by destruct (p b).
Qed.

Lemma mapped_list_ok (f : binding doc → Z) self d :
  (∀ i, i ∈ self → is_Some (rows d !! i)) →
  mapped_list f self d
  = Ok ((λ i, from_option f 0 (rows d !! i)) <$> self) d.
Proof.
  induction self as [|i self IH]; intros Hex; [done|].
  destruct (Hex i) as [b Hb]; [apply list_elem_of_here|].
  simpl. rewrite (bind_Ok _ _ _ _ _ (read_Some _ _ _ Hb)).
  rewrite (bind_Ok _ _ _ _ _ (IH (λ j Hj, Hex j
             (list_elem_of_further _ _ _ Hj)))).
  unfold ret. by rewrite Hb.
Qed.

Lemma apply_vals_idemp v b : apply_vals v (apply_vals v b) = apply_vals v b.
Proof.
  destruct v as [[?|] [?|] [?|] [?|] [?|] [?|]]; by destruct b.
Qed.

Lemma lookup_write_rows ids v m i :
  write_rows ids v m !! i
  = (λ b, if bool_decide (i ∈ ids) then apply_vals v b else b) <$> m !! i.
Proof.
  induction ids as [|j ids IH]; simpl.
  - by destruct (m !! i).
  - destruct (decide (j = i)) as [->|Hne].
    + rewrite lookup_alter_eq, IH.
      rewrite (bool_decide_eq_true_2 (i ∈ i :: ids)) by apply list_elem_of_here.
      destruct (m !! i) as [b|]; simpl; [|done].
      case_bool_decide; [by rewrite apply_vals_idemp | done].
    + rewrite lookup_alter_ne, IH by done.
      destruct (m !! i) as [b|]; simpl; [|done].
      rewrite (bool_decide_ext (i ∈ j :: ids) (i ∈ ids)); [done|].
      rewrite elem_of_cons. intuition congruence.
Qed.

Lemma write_rows_is_Some ids v m i :
  is_Some (write_rows ids v m !! i) ↔ is_Some (m !! i).
Proof. rewrite lookup_write_rows. apply fmap_is_Some. Qed.

Lemma orm_write_ok self v d :
  (∀ i, i ∈ self → is_Some (rows d !! i)) →
  orm_write self v d
  = Ok true (Db (write_rows self v (rows d))
                (journal d ++ [OrmWrite self v])).
Proof.
  intros Hex. unfold orm_write.
  replace (filter (λ i, rows d !! i = None) self) with (@nil Z); [done|].
  induction self as [|i self IH]; [done|].
  destruct (Hex i) as [b Hb]; [apply list_elem_of_here|].
  rewrite filter_cons_False by congruence.
  apply IH. intros j Hj. apply Hex. by apply list_elem_of_further.
Qed.

Lemma lookup_unlink_rows ids m i :
  foldr (λ j acc, delete j acc) m ids !! i
  = if bool_decide (i ∈ ids) then None else m !! i.
Proof.
  induction ids as [|j ids IH]; simpl; [done|].
  destruct (decide (j = i)) as [->|Hne].
  - rewrite lookup_delete_eq. by rewrite bool_decide_eq_true_2 by apply list_elem_of_here.
  - rewrite lookup_delete_ne, IH by done.
    apply (f_equal (λ c : bool, if c then None else m !! i)).
    apply bool_decide_ext. rewrite elem_of_cons. intuition congruence.
Qed.

Lemma minus_nil self : minus self [] = self.
Proof.
  unfold minus. induction self as [|i self IH]; [done|].
  rewrite filter_cons_True by apply not_elem_of_nil. by rewrite IH.
Qed.

End orm_facts.

(** ** [get_export_data], [unlink] and [write] *)
Section entry_points.

Context {doc : Type} `{!EqDecision doc} `{!Environment doc}.
Implicit Types (d : db doc) (m : gmap Z (binding doc)).
Implicit Types (b : binding doc) (v : vals doc).
Implicit Types (self ids pre post : list Z) (i j : Z).

(** *** Deletion guard *)

Lemma unlink_check_pass d i b :
  rows d !! i = Some b → deletable b → unlink_check i () d = Ok () d.
Proof.
  intros Hb Hdel. unfold unlink_check.
  rewrite (bind_Ok _ _ _ _ _ (read_Some _ _ _ Hb)).
  destruct Hdel as [->|[-> ->]]; reflexivity.
Qed.

Lemma unlink_check_fail d i b :
  rows d !! i = Some b → ¬ deletable b →
  unlink_check i () d
  = Raise (UserError (if active b then _msg_cannot_delete_active i
                      else _msg_cannot_delete_not_synchronized i)) d.
Proof.
  intros Hb Hdel. unfold unlink_check.
  rewrite (bind_Ok _ _ _ _ _ (read_Some _ _ _ Hb)).
  unfold deletable in Hdel.
  destruct (sync_state b) eqn:Hst, (active b) eqn:Hact; simpl;
    try reflexivity; exfalso; apply Hdel; auto.
Qed.

Lemma unlink_checks_pass d self :
  Forall (deletable_in (rows d)) self →
  for_each self unlink_check () d = Ok () d.
Proof.
  induction 1 as [|i self (b & Hb & Hdel) _ IH]; [done|].
  simpl. by rewrite (bind_Ok _ _ _ _ _ (unlink_check_pass _ _ _ Hb Hdel)).
Qed.

Lemma unlink_checks_fail d pre i post b :
  Forall (deletable_in (rows d)) pre →
  rows d !! i = Some b → ¬ deletable b →
  for_each (pre ++ i :: post) unlink_check () d
  = Raise (UserError (if active b then _msg_cannot_delete_active i
                      else _msg_cannot_delete_not_synchronized i)) d.
Proof.
  intros Hpre Hb Hdel. rewrite for_each_app.
  rewrite (bind_Ok _ _ _ _ _ (unlink_checks_pass _ _ Hpre)). simpl.
  by rewrite (bind_Raise _ _ _ _ _ (unlink_check_fail _ _ _ Hb Hdel)).
Qed.

(** Either every record may go, or there is a first one that may not. *)
Lemma first_offender m self :
  (∀ i, i ∈ self → is_Some (m !! i)) →
  Forall (deletable_in m) self
  ∨ ∃ pre i post b, self = pre ++ i :: post
      ∧ Forall (deletable_in m) pre ∧ m !! i = Some b ∧ ¬ deletable b.
Proof.
  induction self as [|i self IH]; intros Hex; [by left|].
  destruct (Hex i) as [b Hb]; [apply list_elem_of_here|].
  destruct (decide (deletable b)) as [Hdel|Hdel].
  - destruct IH as [Hall|(pre & j & post & bj & -> & Hpre & Hj & Hndel)].
    + intros j Hj. apply Hex. by apply list_elem_of_further.
    + left. constructor; [by exists b | done].
    + right. exists (i :: pre), j, post, bj. repeat split; try done.
      constructor; [by exists b | done].
  - right. by exists [], i, self, b.
Qed.

Lemma unlink_Ok d self :
  Forall (deletable_in (rows d)) self →
  unlink self d
  = Ok true (Db (foldr (λ i acc, delete i acc) (rows d) self)
                (journal d ++ [OrmUnlink self])).
Proof.
  intros Hall. unfold unlink.
  by rewrite (bind_Ok _ _ _ _ _ (unlink_checks_pass _ _ Hall)).
Qed.

Lemma unlink_Raise d pre i post b :
  Forall (deletable_in (rows d)) pre →
  rows d !! i = Some b → ¬ deletable b →
  unlink (pre ++ i :: post) d
  = Raise (UserError (if active b then _msg_cannot_delete_active i
                      else _msg_cannot_delete_not_synchronized i)) d.
Proof.
  intros Hpre Hb Hdel. unfold unlink.
  by rewrite (bind_Raise _ _ _ _ _
                (unlink_checks_fail _ _ _ post _ Hpre Hb Hdel)).
Qed.

(** C3.  For a set [self] of existing bindings, [unlink] returns (and
    then every binding of [self] is gone from the table) exactly when
    every binding of [self] is in state [new], or in state [done] and
    inactive.  Otherwise it raises [UserError] for the first binding of
    [self] that is neither, with the "unactivate it first" text when
    that binding is active and the "wait until it's synchronized" text
    when it is not, and the table and the journal are as they were
    before the call: nothing has been deleted. *)
Theorem unlink_all_or_nothing d self :
  (∀ i, i ∈ self → is_Some (rows d !! i)) →
  ((∃ d', unlink self d = Ok true d')
     ↔ ∀ i, i ∈ self → ∃ b, rows d !! i = Some b
         ∧ (sync_state b = new
            ∨ (sync_state b = done ∧ active b = false)))
  ∧ (∀ d', unlink self d = Ok true d' →
       ∀ i, i ∈ self → rows d' !! i = None)
  ∧ ((∃ d', unlink self d = Ok true d')
     ∨ ∃ pre i post b, self = pre ++ i :: post
         ∧ Forall (deletable_in (rows d)) pre
         ∧ rows d !! i = Some b
         ∧ ¬ (sync_state b = new
              ∨ (sync_state b = done ∧ active b = false))
         ∧ unlink self d
           = Raise (UserError
               (if active b
                then "You cannot delete the binding '"
                       +:+ display_name i +:+ "', unactivate it first."
                else "You cannot delete the binding '"
                       +:+ display_name i
                       +:+ "', wait until it's synchronized.")) d).
Proof.
  intros Hex.
  destruct (first_offender (rows d) self Hex)
    as [Hall|(pre & i & post & b & -> & Hpre & Hb & Hdel)].
  - pose proof (unlink_Ok d self Hall) as Hok.
    split; [|split].
    + split; [|by eauto].
      intros _ i Hi. by apply (proj1 (Forall_forall _ _) Hall).
    + intros d' Hd' i Hi. rewrite Hok in Hd'. injection Hd' as <-.
      simpl. rewrite lookup_unlink_rows.
      by rewrite bool_decide_eq_true_2.
    + left. eauto.
  - pose proof (unlink_Raise d pre i post b Hpre Hb Hdel) as Hraise.
    split; [|split].
    + split.
      * intros [d' Hd']. by rewrite Hraise in Hd'.
      * intros Hall. exfalso. apply Hdel.
        destruct (Hall i) as (b' & Hb' & ?);
          [apply elem_of_app; right; apply list_elem_of_here|].
        by simplify_eq.
    + intros d' Hd'. by rewrite Hraise in Hd'.
    + right. by exists pre, i, post, b.
Qed.

(** *** [get_export_data] *)

(** C9.  On a binding that exists, [get_export_data] returns the [data]
    stored in its row and leaves the transaction as it found it: no row
    is touched, and the journal records no write and no capability
    run.  The definition takes no capability at all: there is no mapper
    it could call. *)
Theorem get_export_data_reads d i b :
  rows d !! i = Some b →
  get_export_data [i] d = Ok (data b) d.
Proof.
  intros Hb. unfold get_export_data.
  by rewrite (bind_Ok _ _ _ _ _ (read_Some _ _ _ Hb)).
Qed.

(** *** [write] *)

Lemma write_plain d self v :
  (∀ i, i ∈ self → is_Some (rows d !! i)) →
  deactivates v = false →
  write self v d
  = Ok true (Db (write_rows self v (rows d))
                (journal d ++ [OrmWrite self v])).
Proof.
  intros Hex Hv. unfold write. rewrite Hv.
  unfold bind at 1, ret at 1. rewrite minus_nil.
  by apply orm_write_ok.
Qed.

Lemma write_deactivating d self v :
  (∀ i, i ∈ self → is_Some (rows d !! i)) →
  deactivates v = true →
  write self v d
  = Ok true
      (Db (write_rows (minus self (not_new_of (rows d) self)) v
             (write_rows (not_new_of (rows d) self)
                (set_sync_state to_update v) (rows d)))
          ((journal d
            ++ [OrmWrite (not_new_of (rows d) self)
                  (set_sync_state to_update v)])
           ++ [OrmWrite (minus self (not_new_of (rows d) self)) v])).
Proof.
  intros Hex Hv. unfold write. rewrite Hv.
  set (nn := not_new_of (rows d) self).
  assert (Hnn : ∀ i, i ∈ nn → is_Some (rows d !! i)).
  { intros i Hi. apply Hex.
    by apply (proj1 (list_elem_of_filter _ _ _) Hi). }
  erewrite bind_Ok; last first.
  { erewrite bind_Ok; [|by apply filtered_ok].
    erewrite bind_Ok; [|by apply orm_write_ok]. reflexivity. }
  rewrite orm_write_ok; [done|].
  intros i Hi. simpl. apply write_rows_is_Some, Hex.
  by apply (proj1 (list_elem_of_filter _ _ _) Hi).
Qed.

Lemma elem_of_not_new_of m self i b :
  m !! i = Some b →
  i ∈ not_new_of m self ↔ i ∈ self ∧ sync_state b ≠ new.
Proof.
  intros Hb. unfold not_new_of. rewrite list_elem_of_filter, Hb. simpl.
  rewrite bool_decide_spec. tauto.
Qed.

(** The row of a record of [self] after a deactivating write. *)
Lemma write_deactivating_row d self v i b :
  (∀ j, j ∈ self → is_Some (rows d !! j)) →
  deactivates v = true →
  i ∈ self → rows d !! i = Some b →
  ∃ d', write self v d = Ok true d'
    ∧ rows d' !! i
      = Some (if decide (sync_state b = new) then apply_vals v b
              else apply_vals (set_sync_state to_update v) b).
Proof.
  intros Hex Hv Hi Hb. eexists. split; [by apply write_deactivating|].
  simpl. rewrite !lookup_write_rows, Hb. simpl. f_equal.
  pose proof (elem_of_not_new_of (rows d) self i b Hb) as Hnn.
  destruct (decide (sync_state b = new)) as [Hnew|Hnew].
  - rewrite (bool_decide_eq_false_2 (i ∈ not_new_of _ _)) by tauto.
    rewrite bool_decide_eq_true_2; [done|].
    apply list_elem_of_filter. tauto.
  - rewrite (bool_decide_eq_true_2 (i ∈ not_new_of _ _)) by tauto.
    rewrite bool_decide_eq_false_2; [done|].
    unfold minus. rewrite list_elem_of_filter. tauto.
Qed.

Lemma deactivates_spec v : v_active v = Some false → deactivates v = true.
Proof. unfold deactivates. by intros ->. Qed.

(** C4, as the code has it.  A write with [active = False] on existing
    bindings returns; a binding not in state [new] ends in state
    [to_update]; a binding in state [new] keeps [new] when the write
    carries no [sync_state] and gets the carried value when it does;
    every other field of the write ([index_id], the two dates, [data],
    [active]) is stored on both kinds of binding, and fields absent from
    the write keep their value. *)
Theorem write_deactivation d self v i b :
  (∀ j, j ∈ self → is_Some (rows d !! j)) →
  i ∈ self → rows d !! i = Some b →
  v_active v = Some false →
  ∃ d' b', write self v d = Ok true d'
    ∧ rows d' !! i = Some b'
    ∧ (sync_state b ≠ new → sync_state b' = to_update)
    ∧ (sync_state b = new → v_sync_state v = None → sync_state b' = new)
    ∧ (sync_state b = new →
         ∀ st, v_sync_state v = Some st → sync_state b' = st)
    ∧ index_id b' = default (index_id b) (v_index_id v)
    ∧ date_modified b' = default (date_modified b) (v_date_modified v)
    ∧ date_syncronized b'
      = default (date_syncronized b) (v_date_syncronized v)
    ∧ data b' = default (data b) (v_data v)
    ∧ active b' = false.
Proof.
  intros Hex Hi Hb Hv.
  destruct (write_deactivating_row d self v i b Hex
              (deactivates_spec v Hv) Hi Hb) as (d' & Hw & Hrow).
  eexists d', _. split; [exact Hw|]. split; [exact Hrow|].
  destruct (decide (sync_state b = new)) as [Hnew|Hnew]; simpl;
    rewrite Hv; simpl; repeat split; try done.
  - by intros _ ->.
  - by intros _ st ->.
Qed.

(** C10.  On a binding that is not in state [new], a write that carries
    [active = False] together with a [sync_state] of the caller's
    choosing ends with [sync_state = to_update], whatever value was
    carried: [new_vals["sync_state"]] is assigned after the copy. *)
Theorem write_deactivation_overrides d self v i b st :
  (∀ j, j ∈ self → is_Some (rows d !! j)) →
  i ∈ self → rows d !! i = Some b →
  sync_state b ≠ new →
  v_active v = Some false →
  v_sync_state v = Some st →
  ∃ d' b', write self v d = Ok true d'
    ∧ rows d' !! i = Some b'
    ∧ sync_state b' = to_update.
Proof.
  intros Hex Hi Hb Hnew Hv _.
  destruct (write_deactivating_row d self v i b Hex
              (deactivates_spec v Hv) Hi Hb) as (d' & Hw & Hrow).
  eexists d', _. split; [exact Hw|]. split; [exact Hrow|].
  by rewrite decide_False.
Qed.

End entry_points.

(** ** The work partitioner *)
Section partitioner.

Context {doc : Type} `{!EqDecision doc} `{!Environment doc}.
Implicit Types (d : db doc) (m : gmap Z (binding doc)).
Implicit Types (b : binding doc) (k : gmap Z (Z * bool)).
Implicit Types (self ids : list Z) (i j : Z) (w : work).

Lemma elem_of_unique (l : list Z) x : x ∈ unique l ↔ x ∈ l.
Proof.
  induction l as [|y l IH]; simpl; [done|].
  rewrite !elem_of_cons, list_elem_of_filter, IH.
  destruct (decide (x = y)); intuition.
Qed.

Lemma NoDup_unique (l : list Z) : NoDup (unique l).
Proof.
  induction l as [|y l IH]; simpl; constructor.
  - rewrite list_elem_of_filter. intuition.
  - by apply NoDup_filter.
Qed.

Lemma lookup_keys m i : keys m !! i = key <$> m !! i.
Proof. apply lookup_fmap. Qed.

Lemma keys_is_Some m i : is_Some (keys m !! i) ↔ is_Some (m !! i).
Proof. rewrite lookup_keys. apply fmap_is_Some. Qed.

Lemma same_keys_is_Some m1 m2 i :
  keys m1 = keys m2 → is_Some (m1 !! i) ↔ is_Some (m2 !! i).
Proof. intros Hk. by rewrite <- !keys_is_Some, Hk. Qed.

Lemma index_of_keys m i :
  from_option index_id 0 (m !! i) = index_of (keys m) i.
Proof. unfold index_of. rewrite lookup_keys. by destruct (m !! i). Qed.

Lemma backend_of_keys m i :
  is_Some (m !! i) →
  from_option se_backend_id 0 (m !! i) = backend_id (index_of (keys m) i).
Proof.
  intros [b Hb]. unfold index_of. rewrite lookup_keys, Hb. done.
Qed.

Lemma in_group_keys m backend index (a : bool) i :
  from_option (λ b, bool_decide (se_backend_id b = backend)
                    && bool_decide (index_id b = index)
                    && bool_decide (active b = a)) false (m !! i)
  = in_group (keys m) backend index a i.
Proof. unfold in_group. rewrite lookup_keys. by destruct (m !! i). Qed.

(** The three reads of the generator, on any table with the keys [k]. *)
Section reads.
Variables (k : gmap Z (Z * bool)) (S : list Z).
Hypothesis HS : ∀ i, i ∈ S → is_Some (k !! i).

Lemma reads_exist d i : keys (rows d) = k → i ∈ S → is_Some (rows d !! i).
Proof. intros <- Hi. by apply keys_is_Some, HS. Qed.

Lemma mapped_backends d :
  keys (rows d) = k →
  mapped se_backend_id S d
  = Ok (unique ((λ i, backend_id (index_of k i)) <$> S)) d.
Proof.
  intros Hk. unfold mapped.
  rewrite (bind_Ok _ _ _ _ _
             (mapped_list_ok _ _ _ (λ i, reads_exist d i Hk))).
  unfold ret. do 2 f_equal. apply list_fmap_ext. intros n i Hi.
  rewrite <- Hk. apply backend_of_keys.
  apply (reads_exist d i Hk). by eapply list_elem_of_lookup_2.
Qed.

Lemma mapped_indexes d :
  keys (rows d) = k →
  mapped index_id S d = Ok (unique (index_of k <$> S)) d.
Proof.
  intros Hk. unfold mapped.
  rewrite (bind_Ok _ _ _ _ _
             (mapped_list_ok _ _ _ (λ i, reads_exist d i Hk))).
  unfold ret. do 2 f_equal. apply list_fmap_ext. intros n i _.
  rewrite <- Hk. apply index_of_keys.
Qed.

Lemma filtered_group d backend index (a : bool) :
  keys (rows d) = k →
  filtered (λ b, bool_decide (se_backend_id b = backend)
                 && bool_decide (index_id b = index)
                 && bool_decide (active b = a)) S d
  = Ok (filter (λ i, in_group k backend index a i) S) d.
Proof.
  intros Hk. rewrite filtered_ok by (intros i; apply reads_exist, Hk).
  f_equal. apply list_filter_iff. intros i.
  by rewrite in_group_keys, Hk.
Qed.
End reads.

Lemma for_each_keeps_keys {Acc} (body : work → Acc → M Acc) ws acc d acc' d' :
  keeps_keys body →
  for_each ws body acc d = Ok acc' d' → keys (rows d') = keys (rows d).
Proof.
  intros Hbody. revert acc d.
  induction ws as [|w ws IH]; intros acc d; simpl.
  - unfold ret. by intros [= _ ->].
  - unfold bind. destruct (body w acc d) as [acc1 d1|] eqn:Hw; [|done].
    intros Hrest. rewrite (IH _ _ Hrest). by eapply Hbody.
Qed.

(** Consuming the generator with a body that keeps the keys is a plain
    loop over the groups of the table at entry. *)
Lemma _work_by_index_groups {Acc} self (a : bool)
    (body : work → Acc → M Acc) acc d :
  keeps_keys body →
  _work_by_index self a body acc d
  = for_each (groups (keys (rows d)) self a) body acc d.
Proof.
  intros Hbody. unfold _work_by_index, groups.
  set (k := keys (rows d)).
  set (S := filter (λ i, is_Some (k !! i)) self).
  assert (HS : ∀ i, i ∈ S → is_Some (k !! i)).
  { intros i Hi. by apply (proj1 (list_elem_of_filter _ _ _) Hi). }
  assert (Hex : exists_ self d = Ok S d).
  { unfold exists_. f_equal. apply list_filter_iff. intros i.
    symmetry. apply keys_is_Some. }
  rewrite (bind_Ok _ _ _ _ _ Hex).
  rewrite (bind_Ok _ _ _ _ _ (mapped_backends k S HS d eq_refl)).
  assert (Hk : keys (rows d) = k) by done. clearbody k. clear Hex.
  revert acc d Hk.
  induction (unique ((λ i, backend_id (index_of k i)) <$> S))
    as [|backend backends IH]; intros acc d Hk; [done|].
  simpl. rewrite for_each_app, bind_assoc.
  rewrite (bind_Ok _ _ _ _ _ (mapped_indexes k S HS d Hk)).
  assert (Hinner : ∀ indexes acc d, keys (rows d) = k →
    for_each indexes (λ index acc,
      bind (filtered (λ b, bool_decide (se_backend_id b = backend)
                           && bool_decide (index_id b = index)
                           && bool_decide (active b = a)) S)
           (λ bindings, body (Work backend index bindings) acc)) acc d
    = for_each ((λ index, Work backend index
                   (filter (λ i, in_group k backend index a i) S))
                  <$> indexes) body acc d).
  { clear acc d Hk IH. intros indexes.
    induction indexes as [|index indexes IHi]; intros acc d Hk; [done|].
    simpl. rewrite bind_assoc.
    rewrite (bind_Ok _ _ _ _ _ (filtered_group k S HS d _ _ _ Hk)).
    apply bind_cong; [done|]. intros acc1 d1 Hw.
    apply IHi. rewrite <- Hk. by eapply Hbody. }
  apply bind_cong; [by apply Hinner|]. intros acc1 d1 Hgroup.
  apply IH. rewrite <- Hk. by eapply for_each_keeps_keys.
Qed.

(** *** The groups *)

Lemma elem_of_existing k self i :
  i ∈ filter (λ i, is_Some (k !! i)) self ↔ i ∈ self ∧ is_Some (k !! i).
Proof. rewrite list_elem_of_filter. tauto. Qed.

Lemma in_group_spec k backend index (a : bool) i :
  in_group k backend index a i
  ↔ ∃ idx, k !! i = Some (idx, a)
      ∧ backend_id idx = backend ∧ idx = index.
Proof.
  unfold in_group. destruct (k !! i) as [[idx act]|]; simpl.
  - rewrite !andb_True, !bool_decide_spec. split.
    + intros [[? ?] ?]. exists idx. by subst.
    + intros (? & [= <- <-] & ? & ?). done.
  - split; [done|]. by intros (? & ? & _).
Qed.

Lemma elem_of_group k self backend index (a : bool) i :
  i ∈ filter (λ i, in_group k backend index a i)
        (filter (λ i, is_Some (k !! i)) self)
  ↔ i ∈ self ∧ ∃ idx, k !! i = Some (idx, a)
      ∧ backend_id idx = backend ∧ idx = index.
Proof.
  rewrite list_elem_of_filter, elem_of_existing, in_group_spec.
  split; [tauto|]. intros [Hi (idx & Hk & ?)]. rewrite Hk. eauto.
Qed.

Lemma elem_of_groups k self (a : bool) w :
  w ∈ groups k self a
  ↔ (∃ i, i ∈ self ∧ is_Some (k !! i)
        ∧ w_collection w = backend_id (index_of k i))
    ∧ (∃ j, j ∈ self ∧ is_Some (k !! j) ∧ w_index w = index_of k j)
    ∧ w_records w
      = filter (λ i, in_group k (w_collection w) (w_index w) a i)
          (filter (λ i, is_Some (k !! i)) self).
Proof.
  unfold groups. rewrite list_elem_of_bind. split.
  - intros (backend & Hw & Hbackend).
    apply list_elem_of_fmap in Hw as (index & -> & Hindex).
    apply elem_of_unique, list_elem_of_fmap in Hbackend
      as (i & -> & Hi%elem_of_existing).
    apply elem_of_unique, list_elem_of_fmap in Hindex
      as (j & -> & Hj%elem_of_existing).
    simpl. split; [exists i; tauto|]. split; [exists j; tauto|done].
  - intros ((i & Hi & Hki & Hb) & (j & Hj & Hkj & Hx) & Hrec).
    exists (w_collection w). split.
    + apply list_elem_of_fmap. exists (w_index w). split.
      * destruct w; simpl in *. by f_equal.
      * apply elem_of_unique, list_elem_of_fmap. exists j.
        by rewrite elem_of_existing.
    + apply elem_of_unique, list_elem_of_fmap. exists i.
      by rewrite elem_of_existing.
Qed.

Lemma NoDup_groups k self (a : bool) : NoDup (groups k self a).
Proof.
  unfold groups. apply NoDup_bind; [| |apply NoDup_unique].
  - intros b1 b2 w _ _ Hw1 Hw2.
    apply list_elem_of_fmap in Hw1 as (? & -> & _).
    by apply list_elem_of_fmap in Hw2 as (? & [= ->] & _).
  - intros backend _. apply NoDup_fmap_2_strong; [|apply NoDup_unique].
    by intros x y _ _ [= ->].
Qed.

Lemma filter_none {A} (P : A → Prop) `{!∀ x, Decision (P x)} (l : list A) :
  (∀ y, y ∈ l → ¬ P y) → filter P l = [].
Proof.
  induction l as [|x l IH]; intros Hl; [done|].
  rewrite filter_cons_False by apply Hl, list_elem_of_here.
  apply IH. intros y Hy. by apply Hl, list_elem_of_further.
Qed.

Lemma length_filter_one {A} (P : A → Prop) `{!∀ x, Decision (P x)}
    (l : list A) x :
  NoDup l → x ∈ l → P x → (∀ y, y ∈ l → P y → y = x) →
  length (filter P l) = 1%nat.
Proof.
  intros Hnd Hx HP Honly.
  destruct (list_elem_of_split l x Hx) as (l1 & l2 & ->).
  apply NoDup_app in Hnd as (_ & Hl1 & [Hl2 _]%NoDup_cons).
  rewrite filter_app, filter_cons_True by done.
  rewrite (filter_none P l1), (filter_none P l2); [done| |].
  - intros y Hy HPy. apply Hl2. rewrite <- (Honly y); [done| |done].
    apply elem_of_app. right. by apply list_elem_of_further.
  - intros y Hy HPy. apply (Hl1 y Hy).
    rewrite (Honly y); [apply list_elem_of_here| |done].
    apply elem_of_app. by left.
Qed.

(** A record that is handed out is in exactly one group. *)
Lemma groups_one k self (a : bool) i idx :
  i ∈ self → k !! i = Some (idx, a) →
  length (filter (λ w, i ∈ w_records w) (groups k self a)) = 1%nat.
Proof.
  intros Hi Hk.
  set (w0 := Work (backend_id idx) idx
               (filter (λ i, in_group k (backend_id idx) idx a i)
                  (filter (λ i, is_Some (k !! i)) self))).
  assert (Hidx : index_of k i = idx) by (unfold index_of; by rewrite Hk).
  apply (length_filter_one _ _ w0).
  - apply NoDup_groups.
  - apply elem_of_groups. simpl.
    split; [|split; [|done]]; exists i; rewrite Hidx, Hk; eauto.
  - simpl. apply elem_of_group. eauto.
  - intros w Hw Hiw. apply elem_of_groups in Hw as (_ & _ & Hrec).
    rewrite Hrec in Hiw.
    apply elem_of_group in Hiw as (_ & idx' & Hk' & Hb & Hx).
    rewrite Hk in Hk'. injection Hk' as <-.
    destruct w as [wb wi wr]; simpl in *. subst. done.
Qed.

Lemma selected_keys m self (a : bool) i :
  selected m self a i
  ↔ i ∈ self ∧ ∃ idx, keys m !! i = Some (idx, a).
Proof.
  unfold selected. rewrite lookup_keys. split.
  - intros [Hi (b & -> & <-)]. split; [done|]. by exists (index_id b).
  - intros [Hi (idx & Hk)]. split; [done|].
    destruct (m !! i) as [b|]; [|done]. injection Hk as <- <-. eauto.
Qed.

Lemma groups_member m self (a : bool) w i :
  w ∈ groups (keys m) self a → i ∈ w_records w →
  i ∈ self ∧ ∃ b, m !! i = Some b ∧ active b = a
    ∧ w_index w = index_id b ∧ w_collection w = se_backend_id b.
Proof.
  intros (_ & _ & Hrec)%elem_of_groups Hi. rewrite Hrec in Hi.
  apply elem_of_group in Hi as (Hi & idx & Hk & Hcol & Hidx).
  split; [done|]. rewrite lookup_keys in Hk.
  destruct (m !! i) as [b|]; [|done]. injection Hk as <- Hact.
  exists b. by rewrite <- Hidx, <- Hcol.
Qed.

Lemma elem_of_group_records m self (a : bool) i :
  i ∈ groups (keys m) self a ≫= w_records ↔ selected m self a i.
Proof.
  rewrite list_elem_of_bind. split.
  - intros (w & Hi & Hw).
    destruct (groups_member m self a w i Hw Hi) as (? & b & ? & ? & _).
    split; [done|]. by exists b.
  - intros Hsel. pose proof Hsel as [Hi (idx & Hk)]%selected_keys.
    pose proof (groups_one (keys m) self a i idx Hi Hk) as Hone.
    destruct (filter (λ w, i ∈ w_records w) (groups (keys m) self a))
      as [|w ws] eqn:Hf; [done|].
    assert (Hw : w ∈ filter (λ w, i ∈ w_records w)
                       (groups (keys m) self a))
      by (rewrite Hf; apply list_elem_of_here).
    apply list_elem_of_filter in Hw as [? ?]. by exists w.
Qed.

Lemma collect_groups (ws acc : list work) d :
  for_each ws (λ w ws, ret (ws ++ [w])) acc d = Ok (acc ++ ws) d.
Proof.
  revert acc. induction ws as [|w ws IH]; intros acc; simpl.
  - by rewrite app_nil_r.
  - unfold bind, ret at 1. rewrite IH. by rewrite <- app_assoc.
Qed.

Lemma work_list_groups self (a : bool) d :
  work_list self a d = Ok (groups (keys (rows d)) self a) d.
Proof.
  unfold work_list. rewrite _work_by_index_groups.
  - apply collect_groups.
  - intros w acc d1 acc' d'. unfold ret. by intros [= _ ->].
Qed.

(** C2, as the code has it.  Consumed as a list, [_work_by_index]
    leaves the transaction untouched and yields groups such that every
    existing binding of [self] whose [active] flag equals the filter is
    in exactly one of them, and nothing else is in any group.  There is
    a group for every backend met in [self] paired with every index met
    in [self], whether or not a binding of [self] matches the pair. *)
Theorem work_list_partition d self (a : bool) :
  ∃ ws, work_list self a d = Ok ws d
    ∧ (∀ i, selected (rows d) self a i →
         length (filter (λ w, i ∈ w_records w) ws) = 1%nat)
    ∧ (∀ w i, w ∈ ws → i ∈ w_records w → selected (rows d) self a i)
    ∧ (∀ i j bi bj, i ∈ self → j ∈ self →
         rows d !! i = Some bi → rows d !! j = Some bj →
         ∃ w, w ∈ ws ∧ w_collection w = se_backend_id bi
              ∧ w_index w = index_id bj).
Proof.
  exists (groups (keys (rows d)) self a).
  split; [apply work_list_groups|]. split; [|split].
  - intros i [Hi (idx & Hk)]%selected_keys. by eapply groups_one.
  - intros w i Hw Hiw. apply selected_keys.
    apply elem_of_groups in Hw as (_ & _ & Hrec). rewrite Hrec in Hiw.
    apply elem_of_group in Hiw as (Hi & idx & Hk & _). eauto.
  - intros i j bi bj Hi Hj Hbi Hbj.
    eexists (Work (se_backend_id bi) (index_id bj) _).
    split; [|done]. apply elem_of_groups. simpl.
    split; [|split; [|done]].
    + exists i. unfold index_of. rewrite lookup_keys, Hbi. eauto.
    + exists j. unfold index_of. rewrite lookup_keys, Hbj. eauto.
Qed.

End partitioner.

(** ** The recompute engine *)
Section recompute.

Context {doc : Type} `{!EqDecision doc}.
Context `{!Environment doc} `{!Components doc}.
Implicit Types (d : db doc) (m : gmap Z (binding doc)).
Implicit Types (b : binding doc) (v : vals doc) (e : event doc).
Implicit Types (self ids : list Z) (i j : Z) (w : work).
Implicit Types (acc : recompute_locals) (force : bool).

(** *** Rows *)

Lemma lookup_on_rows ids (f : Z → binding doc → binding doc) m i :
  on_rows ids f m !! i
  = (λ b, if bool_decide (i ∈ ids) then f i b else b) <$> m !! i.
Proof.
  unfold on_rows. rewrite map_lookup_imap. by destruct (m !! i).
Qed.

Lemma on_rows_nil (f : Z → binding doc → binding doc) m :
  on_rows [] f m = m.
Proof.
  apply map_eq. intros i. rewrite lookup_on_rows.
  by destruct (m !! i).
Qed.

Lemma on_rows_snoc ids (f : Z → binding doc → binding doc) m i :
  (∀ b, f i (f i b) = f i b) →
  on_rows [i] f (on_rows ids f m) = on_rows (ids ++ [i]) f m.
Proof.
  intros Hf. apply map_eq. intros j. rewrite !lookup_on_rows.
  destruct (m !! j) as [b|]; [|done]. simpl. f_equal.
  destruct (decide (j = i)) as [->|Hne].
  - rewrite (bool_decide_eq_true_2 (i ∈ [i])) by apply list_elem_of_here.
    rewrite (bool_decide_eq_true_2 (i ∈ ids ++ [i]))
      by (apply elem_of_app; right; apply list_elem_of_here).
    by case_bool_decide.
  - rewrite (bool_decide_eq_false_2 (j ∈ [i]))
      by (by rewrite list_elem_of_singleton).
    apply (f_equal (λ c : bool, if c then f j b else b)).
    apply bool_decide_ext. rewrite elem_of_app, list_elem_of_singleton.
    tauto.
Qed.

Lemma write_rows_on_rows ids v m :
  write_rows ids v m = on_rows ids (λ _, apply_vals v) m.
Proof.
  apply map_eq. intros i. by rewrite lookup_write_rows, lookup_on_rows.
Qed.

Lemma keys_on_rows ids (f : Z → binding doc → binding doc) m :
  (∀ i b, key (f i b) = key b) → keys (on_rows ids f m) = keys m.
Proof.
  intros Hf. apply map_eq. intros i.
  rewrite !lookup_keys, lookup_on_rows.
  destruct (m !! i) as [b|]; [|done]. simpl. f_equal.
  by case_bool_decide.
Qed.

Lemma keys_write_rows ids v m :
  v_index_id v = None → v_active v = None →
  keys (write_rows ids v m) = keys m.
Proof.
  intros Hidx Hact. rewrite write_rows_on_rows. apply keys_on_rows.
  intros _ b. unfold key, apply_vals. simpl. by rewrite Hidx, Hact.
Qed.

(** *** One row *)

Lemma apply_recompute_vals i b :
  apply_vals (recompute_vals i b) b
  = Binding (index_id b) to_update (date_modified b)
            (date_syncronized b) (candidate i b) (active b).
Proof.
  unfold recompute_vals. case_bool_decide as Hst; [done|].
  unfold apply_vals. simpl. by rewrite Hst.
Qed.

Lemma recomputed_index force i b :
  index_id (recomputed force i b) = index_id b.
Proof.
  unfold recomputed.
  by destruct (rejected i b),
    (bool_decide (data b ≠ candidate i b) || force).
Qed.

Lemma recomputed_key force i b : key (recomputed force i b) = key b.
Proof.
  unfold recomputed.
  by destruct (rejected i b),
    (bool_decide (data b ≠ candidate i b) || force).
Qed.

Lemma candidate_index i b b' :
  index_id b' = index_id b → candidate i b' = candidate i b.
Proof. unfold candidate. by intros ->. Qed.

Lemma rejected_index i b b' :
  index_id b' = index_id b → rejected i b' = rejected i b.
Proof.
  unfold rejected, verdict, se_backend_id, candidate. by intros ->.
Qed.

Lemma recomputed_data force i b :
  rejected i b = false →
  data (recomputed force i b) = candidate i b.
Proof.
  intros Hrej. unfold recomputed. rewrite Hrej.
  destruct (bool_decide (data b ≠ candidate i b)) eqn:Hch; simpl; [done|].
  apply bool_decide_eq_false, dec_stable in Hch.
  by destruct force.
Qed.

Lemma recomputed_idemp force i b :
  recomputed force i (recomputed force i b) = recomputed force i b.
Proof.
  destruct (rejected i b) eqn:Hrej.
  { unfold recomputed. by rewrite !Hrej. }
  pose proof (recomputed_data force i b Hrej) as Hdata.
  pose proof (recomputed_index force i b) as Hidx.
  unfold recomputed at 1.
  rewrite (rejected_index i b _ Hidx), Hrej.
  rewrite (candidate_index i b _ Hidx), Hdata.
  rewrite (bool_decide_eq_false_2 (candidate i b ≠ candidate i b))
    by (intros H; by apply H).
  destruct force; simpl; [|done].
  unfold recomputed. rewrite Hrej, orb_true_r. done.
Qed.

(** *** One step of the loop *)

(** The step, unfolded on a row that exists, for any work context. *)
Lemma recompute_binding_unfold force w i acc d b :
  rows d !! i = Some b →
  recompute_binding force w i acc d
  = let c := map_record (lang_code (w_index w)) i in
    let error := validate_record (w_collection w) c in
    let v := if bool_decide (sync_state b ≠ to_update)
             then set_sync_state to_update (set_data c no_vals)
             else set_data c no_vals in
    if truthy error
    then Ok (Locals (validation_errors acc
                       ++ [binding_str i +:+ ": " +:+ default "" error])
                    (to_be_checked_ids acc ++ [i])) d
    else if bool_decide (data b ≠ c) || force
    then Ok acc (Db (write_rows [i] v (rows d))
                    (journal d ++ [OrmWrite [i] v]))
    else Ok acc d.
Proof.
  intros Hb. unfold recompute_binding, _recompute_json_work_ctx,
    _validate_record. simpl.
  destruct (truthy _); [done|].
  rewrite (bind_Ok _ _ _ _ _ (read_Some _ _ _ Hb)).
  destruct (bool_decide _ || force); [|done].
  rewrite (bind_Ok _ _ _ _ _ (read_Some _ _ _ Hb)).
  match goal with |- bind (write _ ?v) _ _ = _ => set (vs := v) end.
  assert (Hw : write [i] vs d
               = Ok true (Db (write_rows [i] vs (rows d))
                             (journal d ++ [OrmWrite [i] vs]))).
  { apply write_plain.
    - intros j ->%list_elem_of_singleton. by rewrite Hb.
    - unfold vs. by case_bool_decide. }
  by rewrite (bind_Ok _ _ _ _ _ Hw).
Qed.

Lemma recompute_binding_keeps_keys force :
  keeps_keys (λ w acc,
    for_each (w_records w) (recompute_binding force w) acc).
Proof.
  intros w acc d acc' d'. revert acc d.
  induction (w_records w) as [|i ids IH]; intros acc d; simpl.
  - unfold ret. by intros [= _ ->].
  - unfold bind.
    destruct (recompute_binding force w i acc d) as [acc1 d1|] eqn:Hstep;
      [|done].
    intros Hrest. rewrite (IH _ _ Hrest). clear Hrest IH.
    destruct (rows d !! i) as [b|] eqn:Hb.
    + rewrite (recompute_binding_unfold _ _ _ _ _ _ Hb) in Hstep.
      cbv zeta in Hstep.
      destruct (truthy _); [by injection Hstep as _ <-|].
      destruct (bool_decide _ || force); [|by injection Hstep as _ <-].
      injection Hstep as _ <-. apply (keys_write_rows [i]).
      * by case_bool_decide.
      * by case_bool_decide.
    + unfold recompute_binding in Hstep.
      destruct (truthy _); [by injection Hstep as _ <-|].
      by rewrite (bind_Raise _ _ _ _ _ (read_None _ _ Hb)) in Hstep.
Qed.

Lemma error_line_index i b b' :
  index_id b' = index_id b → error_line i b' = error_line i b.
Proof.
  unfold error_line, verdict, se_backend_id, candidate. by intros ->.
Qed.

Lemma recompute_vals_shape i b :
  ∃ s, (s = None ∨ s = Some to_update)
    ∧ recompute_vals i b
      = Vals None s None None (Some (candidate i b)) None.
Proof.
  unfold recompute_vals. case_bool_decide; eauto.
Qed.

Lemma replay_app (es1 es2 : list (event doc)) m :
  replay (es1 ++ es2) m = replay es2 (replay es1 m).
Proof. apply foldl_app. Qed.

Lemma data_writes_flagged_app m (es1 es2 : list (event doc)) :
  data_writes_flagged m (es1 ++ es2)
  ↔ data_writes_flagged m es1 ∧ data_writes_flagged (replay es1 m) es2.
Proof.
  revert m. induction es1 as [|e es1 IH]; intros m; simpl.
  - tauto.
  - rewrite IH. unfold replay at 2. simpl. tauto.
Qed.

Lemma replay_refresh_events force i b m :
  m !! i = Some b →
  replay (refresh_events force i b) m = on_rows [i] (recomputed force) m.
Proof.
  intros Hb. apply map_eq. intros j. rewrite lookup_on_rows.
  assert (Hreplay : replay (refresh_events force i b) m !! j
                    = if bool_decide (j = i)
                      then Some (recomputed force i b) else m !! j).
  { unfold refresh_events, recomputed.
    destruct (rejected i b) eqn:Hrej; simpl.
    { case_bool_decide; by subst. }
    destruct (bool_decide (data b ≠ candidate i b) || force); simpl.
    - unfold replay. simpl. rewrite lookup_alter.
      destruct (decide (i = j)) as [<-|Hne].
      + rewrite bool_decide_eq_true_2 by done.
        by rewrite Hb, <- apply_recompute_vals.
      + by rewrite bool_decide_eq_false_2 by congruence.
    - case_bool_decide; by subst. }
  rewrite Hreplay. destruct (decide (j = i)) as [->|Hne].
  - rewrite bool_decide_eq_true_2 by done. rewrite Hb. simpl.
    by rewrite bool_decide_eq_true_2 by apply list_elem_of_here.
  - rewrite bool_decide_eq_false_2 by done.
    destruct (m !! j) as [bj|]; [|done]. simpl.
    rewrite bool_decide_eq_false_2; [done|].
    by rewrite list_elem_of_singleton.
Qed.

(** The step on a row of the group it is run for. *)
Lemma recompute_binding_run force w i acc d b :
  rows d !! i = Some b →
  w_index w = index_id b →
  w_collection w = se_backend_id b →
  recompute_binding force w i acc d
  = Ok (if rejected i b
        then Locals (validation_errors acc ++ [error_line i b])
                    (to_be_checked_ids acc ++ [i])
        else acc)
       (Db (replay (refresh_events force i b) (rows d))
           (journal d ++ refresh_events force i b)).
Proof.
  intros Hb Hidx Hcol.
  rewrite (recompute_binding_unfold _ _ _ _ _ _ Hb), Hidx, Hcol.
  cbv zeta. fold (candidate i b). fold (verdict i b).
  fold (rejected i b). fold (recompute_vals i b). fold (error_line i b).
  unfold refresh_events.
  destruct (rejected i b); simpl.
  { rewrite app_nil_r. by destruct d. }
  destruct (bool_decide (data b ≠ candidate i b) || force); simpl.
  - done.
  - rewrite app_nil_r. by destruct d.
Qed.

(** *** The loop *)

Lemma elem_of_processed m self i :
  i ∈ processed m self ↔ selected m self true i.
Proof. apply elem_of_group_records. Qed.

Lemma refused_eq m i b : m !! i = Some b → refused m i = rejected i b.
Proof. unfold refused. by intros ->. Qed.

Lemma refresh_event_mono m ids ids' e :
  (∀ i, i ∈ ids → i ∈ ids') →
  refresh_event m ids e → refresh_event m ids' e.
Proof.
  intros Hsub (i & b & s & Hi & ?). exists i, b, s. split; [|done].
  by apply Hsub.
Qed.

(** One step keeps the invariant of the loop. *)
Lemma loop_step d0 force ids w i b0 acc d :
  rows d0 !! i = Some b0 →
  w_index w = index_id b0 →
  w_collection w = se_backend_id b0 →
  loop_inv d0 force ids acc d →
  ∃ acc' d', recompute_binding force w i acc d = Ok acc' d'
    ∧ loop_inv d0 force (ids ++ [i]) acc' d'.
Proof.
  intros Hb0 Hidx Hcol (Hrows & Herr & Htbc & es & Hjournal & Hes).
  destruct Hes as (Hreplay & Hflag & Hshape & Hquiet & Hforced).
  set (b := if bool_decide (i ∈ ids) then recomputed force i b0 else b0).
  assert (Hb : rows d !! i = Some b).
  { by rewrite Hrows, lookup_on_rows, Hb0. }
  assert (Hbidx : index_id b = index_id b0).
  { unfold b. case_bool_decide; [apply recomputed_index | done]. }
  assert (Hrej : rejected i b = rejected i b0)
    by by apply rejected_index.
  assert (Hcand : candidate i b = candidate i b0)
    by by apply candidate_index.
  eexists _, _. split.
  { apply (recompute_binding_run force w i acc d b Hb).
    - by rewrite Hbidx.
    - unfold se_backend_id. by rewrite Hbidx. }
  assert (Hrows' : replay (refresh_events force i b) (rows d)
                   = on_rows (ids ++ [i]) (recomputed force) (rows d0)).
  { rewrite (replay_refresh_events _ _ _ _ Hb), Hrows.
    apply on_rows_snoc. intros ?. apply recomputed_idemp. }
  split; [exact Hrows'|]. split; [|split].
  - unfold error_lines. rewrite filter_app, fmap_app, filter_cons, filter_nil.
    rewrite Hrej. fold (error_lines (rows d0) ids).
    destruct (decide (refused (rows d0) i)) as [Hr|Hr];
      rewrite (refused_eq _ _ _ Hb0) in Hr.
    + apply Is_true_true in Hr. rewrite Hr. simpl.
      by rewrite Herr, Hb0, (error_line_index _ _ _ Hbidx).
    + apply Is_true_false in Hr. rewrite Hr. simpl.
      by rewrite app_nil_r.
  - rewrite filter_app, filter_cons, filter_nil, Hrej.
    destruct (decide (refused (rows d0) i)) as [Hr|Hr];
      rewrite (refused_eq _ _ _ Hb0) in Hr.
    + apply Is_true_true in Hr. rewrite Hr. simpl. by rewrite Htbc.
    + apply Is_true_false in Hr. rewrite Hr. simpl.
      by rewrite app_nil_r.
  - exists (es ++ refresh_events force i b). simpl.
    split; [by rewrite Hjournal, app_assoc|].
    split; [by rewrite replay_app, Hreplay, <- Hrows|].
    split; [|split; [|split]].
    + apply data_writes_flagged_app. split; [done|].
      rewrite Hreplay, <- Hrows. unfold refresh_events.
      destruct (negb (rejected i b) && _); [|done]. simpl.
      split; [|done]. intros _ j bj ->%list_elem_of_singleton.
      rewrite lookup_alter_eq, Hb. simpl. intros [= <-].
      by rewrite apply_recompute_vals.
    + apply Forall_app. split.
      * eapply Forall_impl; [done|]. intros e.
        apply refresh_event_mono. intros j Hj.
        apply elem_of_app. by left.
      * unfold refresh_events.
        destruct (rejected i b) eqn:Hrb; simpl; [done|].
        destruct (bool_decide _ || force); [|done].
        apply Forall_singleton.
        destruct (recompute_vals_shape i b) as (s & Hs & ->).
        exists i, b0, s. rewrite <- Hrej, <- Hcand.
        split; [|done]. apply elem_of_app. right. apply list_elem_of_here.
    + intros -> Hsame. rewrite Hquiet; [|done|]; last first.
      { intros j bj Hj. apply Hsame. apply elem_of_app. by left. }
      unfold refresh_events. rewrite orb_false_r.
      destruct (rejected i b) eqn:Hrb; simpl; [done|].
      rewrite bool_decide_eq_false_2; [done|]. intros Hne. apply Hne.
      rewrite Hcand. unfold b. case_bool_decide.
      * apply recomputed_data. by rewrite <- Hrej.
      * apply (Hsame i b0); [|done|by rewrite <- Hrej].
        apply elem_of_app. right. apply list_elem_of_here.
    + intros -> j bj [Hj|Hj%list_elem_of_singleton]%elem_of_app Hbj Hrj.
      * destruct (Hforced eq_refl j bj Hj Hbj Hrj) as [s Hs].
        exists s. apply elem_of_app. by left.
      * subst j. rewrite Hb0 in Hbj. injection Hbj as <-.
        unfold refresh_events. rewrite Hrej, Hrj, orb_true_r. simpl.
        destruct (recompute_vals_shape i b) as (s & _ & ->).
        exists s. apply elem_of_app. right. rewrite Hcand.
        apply list_elem_of_here.
Qed.

Lemma loop_inv_start d0 force : loop_inv d0 force [] (Locals [] []) d0.
Proof.
  split; [by rewrite on_rows_nil|]. split; [done|]. split; [done|].
  exists []. split; [by rewrite app_nil_r|].
  split; [by rewrite on_rows_nil|]. split; [done|].
  split; [done|]. split; [done|].
  by intros _ i b ?%not_elem_of_nil.
Qed.

Lemma recompute_loop d0 self force :
  ∃ acc d,
    _work_by_index self true (λ w acc,
      for_each (w_records w) (recompute_binding force w) acc)
      (Locals [] []) d0 = Ok acc d
    ∧ loop_inv d0 force (processed (rows d0) self) acc d.
Proof.
  rewrite _work_by_index_groups by apply recompute_binding_keeps_keys.
  change (processed (rows d0) self)
    with ([] ++ (groups (keys (rows d0)) self true ≫= w_records)).
  apply (for_each_nested_inv (loop_inv d0 force) w_records
           (recompute_binding force)
           (groups (keys (rows d0)) self true));
    [|apply loop_inv_start].
  intros seen w i acc d Hw Hi Hinv.
  destruct (groups_member _ _ _ _ _ Hw Hi) as (_ & b0 & Hb0 & _ & ? & ?).
  by eapply loop_step.
Qed.

(** *** The whole call *)

Lemma quarantine_rows m ids force :
  write_rows (filter (λ i, refused m i) ids) quarantine_vals
    (on_rows ids (recomputed force) m)
  = on_rows ids (recompute_row force) m.
Proof.
  apply map_eq. intros j.
  rewrite lookup_write_rows, !lookup_on_rows.
  destruct (m !! j) as [b|] eqn:Hj; [|done]. simpl. f_equal.
  destruct (decide (j ∈ ids)) as [Hin|Hin].
  - rewrite (bool_decide_eq_true_2 (j ∈ ids)) by done.
    unfold recompute_row, recomputed.
    destruct (rejected j b) eqn:Hrej.
    + rewrite bool_decide_eq_true_2; [done|].
      apply list_elem_of_filter. split; [|done].
      rewrite (refused_eq _ _ _ Hj), Hrej. done.
    + rewrite bool_decide_eq_false_2; [done|].
      rewrite list_elem_of_filter, (refused_eq _ _ _ Hj), Hrej.
      by intros [? _].
  - rewrite (bool_decide_eq_false_2 (j ∈ ids)) by done.
    rewrite bool_decide_eq_false_2; [done|].
    rewrite list_elem_of_filter. tauto.
Qed.

Lemma report_text (lines : list string) :
  String.concat (nl +:+ nl)
    (if bool_decide (lines ≠ [])
     then ["Validation errors" +:+ nl +:+ String.concat nl lines] else [])
  = match lines with
    | [] => ""
    | _ => "Validation errors" +:+ nl +:+ String.concat nl lines
    end.
Proof. by destruct lines. Qed.

(** [recompute_json] returns; its report, the table and the journal it
    leaves are the ones described above. *)
Lemma recompute_json_run d0 self force :
  ∃ es,
    recompute_json self force d0
    = Ok (report (rows d0) self)
         (Db (on_rows (processed (rows d0) self) (recompute_row force)
                (rows d0))
             (journal d0 ++ es ++ quarantine_events (rows d0) self))
    ∧ loop_journal (rows d0) force (processed (rows d0) self) es.
Proof.
  destruct (recompute_loop d0 self force)
    as (acc & d & Hloop & Hrows & Herr & Htbc & es & Hjournal & Hes).
  exists es. split; [|done].
  unfold recompute_json. rewrite (bind_Ok _ _ _ _ _ Hloop).
  rewrite report_text, Herr.
  change (match error_lines (rows d0) (processed (rows d0) self) with
          | [] => ""
          | _ :: _ => "Validation errors" +:+ nl +:+ String.concat nl
              (error_lines (rows d0) (processed (rows d0) self))
          end) with (report (rows d0) self).
  rewrite Htbc. fold (quarantined (rows d0) self).
  fold (quarantine_vals (doc:=doc)).
  unfold quarantine_events.
  pose proof (quarantine_rows (rows d0) (processed (rows d0) self) force)
    as Hq. fold (quarantined (rows d0) self) in Hq.
  destruct (quarantined (rows d0) self) as [|q qs] eqn:Hqs.
  - simpl. unfold bind, ret. simpl in Hq. rewrite <- Hq, <- Hrows.
    rewrite app_nil_r, <- Hjournal. by destruct d.
  - rewrite bool_decide_eq_true_2 by done.
    erewrite bind_Ok; last first.
    { apply write_plain; [|done]. intros j Hj.
      assert (Hsel : j ∈ processed (rows d0) self).
      { assert (Hjq : j ∈ quarantined (rows d0) self) by by rewrite Hqs.
        by apply list_elem_of_filter in Hjq as [_ ?]. }
      apply elem_of_processed in Hsel as (_ & b & Hb & _).
      rewrite Hrows, lookup_on_rows, Hb. by eexists. }
    unfold ret. by rewrite Hrows, Hq, Hjournal, <- app_assoc.
Qed.

Lemma lookup_recompute_json_rows m self force i b :
  m !! i = Some b → selected m self true i →
  on_rows (processed m self) (recompute_row force) m !! i
  = Some (recompute_row force i b).
Proof.
  intros Hb Hsel%elem_of_processed. rewrite lookup_on_rows, Hb. simpl.
  by rewrite bool_decide_eq_true_2.
Qed.

Lemma selected_here m self i b :
  i ∈ self → m !! i = Some b → active b = true → selected m self true i.
Proof. intros ? ? ?. split; [done|]. by exists b. Qed.

(** C1.  [recompute_json] returns, and every binding whose [data] after
    the call differs from its [data] before is then in state
    [to_update].  Along the way, every write of the call that carries a
    [data] value leaves the rows it is applied to in state [to_update]:
    the same write carries [sync_state = to_update], or the row had it
    already. *)
Theorem recompute_json_flags_changed_data d0 self force :
  ∃ text d' es,
    recompute_json self force d0 = Ok text d'
    ∧ journal d' = journal d0 ++ es
    ∧ data_writes_flagged (rows d0) es
    ∧ ∀ i b b', rows d0 !! i = Some b → rows d' !! i = Some b' →
        data b' ≠ data b → sync_state b' = to_update.
Proof.
  destruct (recompute_json_run d0 self force)
    as (es & Hrun & Hreplay & Hflag & _).
  eexists _, _, _. split; [exact Hrun|]. split; [done|]. split.
  - apply data_writes_flagged_app. split; [done|].
    unfold quarantine_events.
    destruct (quarantined (rows d0) self); [done|]. simpl.
    split; [|done]. by intros [? ?].
  - intros i b b' Hb. simpl. rewrite lookup_on_rows, Hb. simpl.
    intros [= <-].
    destruct (bool_decide (i ∈ processed (rows d0) self)); [|done].
    unfold recompute_row, recomputed.
    destruct (rejected i b); [done|].
    by destruct (bool_decide (data b ≠ candidate i b) || force).
Qed.

(** C5.  When the candidate of an existing, active binding [i] of
    [self] is refused by the validator, [recompute_json] still returns.
    Its report is the "Validation errors" header followed by lines, one
    of which is the text of [i] with the validator's message; the row
    of [i] is as before but for [sync_state = to_be_checked], so its
    [data] is untouched; every record of the batch whose candidate is
    accepted has the row the loop gives it ([recomputed]: candidate
    stored and [to_update] when the document differs or the export is
    forced, untouched otherwise); and the journal of the call ends with
    one write of [sync_state = to_be_checked] on all refused records at
    once, after writes that each store a candidate on one accepted
    record. *)
Theorem recompute_json_isolates_failures d0 self force i b :
  i ∈ self → rows d0 !! i = Some b → active b = true →
  rejected i b = true →
  ∃ d' es lines,
    recompute_json self force d0
    = Ok ("Validation errors" +:+ nl +:+ String.concat nl lines) d'
    ∧ binding_str i +:+ ": "
        +:+ default "" (validate_record (se_backend_id b)
                          (map_record (lang_code (index_id b)) i))
        ∈ lines
    ∧ rows d' !! i
      = Some (Binding (index_id b) to_be_checked (date_modified b)
                      (date_syncronized b) (data b) (active b))
    ∧ (∀ j bj, selected (rows d0) self true j →
         rows d0 !! j = Some bj → rejected j bj = false →
         rows d' !! j = Some (recomputed force j bj))
    ∧ journal d'
      = journal d0 ++ es
          ++ [OrmWrite (quarantined (rows d0) self)
                (Vals None (Some to_be_checked) None None None None)]
    ∧ (∀ j, j ∈ quarantined (rows d0) self
            ↔ selected (rows d0) self true j ∧ refused (rows d0) j)
    ∧ Forall (refresh_event (rows d0) (processed (rows d0) self)) es.
Proof.
  intros Hi Hb Hact Hrej.
  pose proof (selected_here _ _ _ _ Hi Hb Hact) as Hsel.
  destruct (recompute_json_run d0 self force)
    as (es & Hrun & _ & _ & Hshape & _).
  assert (Hq : i ∈ quarantined (rows d0) self).
  { apply list_elem_of_filter. rewrite (refused_eq _ _ _ Hb), Hrej.
    split; [done|]. by apply elem_of_processed. }
  assert (Hline : error_line i b
                  ∈ error_lines (rows d0) (processed (rows d0) self)).
  { unfold error_lines. apply list_elem_of_fmap.
    exists i. by rewrite Hb. }
  exists (Db (on_rows (processed (rows d0) self) (recompute_row force)
                (rows d0))
             (journal d0 ++ es ++ quarantine_events (rows d0) self)),
    es, (error_lines (rows d0) (processed (rows d0) self)).
  split; [|split; [exact Hline|split; [|split; [|split; [|split]]]]].
  - rewrite Hrun. f_equal. unfold report.
    by destruct (error_lines (rows d0) (processed (rows d0) self));
      [apply not_elem_of_nil in Hline|].
  - simpl. rewrite (lookup_recompute_json_rows _ _ _ _ _ Hb Hsel).
    unfold recompute_row. by rewrite Hrej.
  - intros j bj Hj Hbj Hrj. simpl.
    rewrite (lookup_recompute_json_rows _ _ _ _ _ Hbj Hj).
    unfold recompute_row. by rewrite Hrj.
  - simpl. unfold quarantine_events.
    by destruct (quarantined (rows d0) self);
      [apply not_elem_of_nil in Hq|].
  - intros j. unfold quarantined.
    rewrite list_elem_of_filter, elem_of_processed. tauto.
  - done.
Qed.

(** C7, as the code has it.  For an existing, active binding [i] of
    [self] whose candidate the validator accepts, [recompute_json] with
    [force_export = True] writes the candidate to [data] (the journal of
    the call has a write on [i] carrying it) and leaves the binding in
    state [to_update], whether or not the candidate equals the stored
    [data]. *)
Theorem recompute_json_force d0 self i b :
  i ∈ self → rows d0 !! i = Some b → active b = true →
  rejected i b = false →
  ∃ text d' es s,
    recompute_json self true d0 = Ok text d'
    ∧ rows d' !! i
      = Some (Binding (index_id b) to_update (date_modified b)
                      (date_syncronized b)
                      (map_record (lang_code (index_id b)) i) (active b))
    ∧ journal d' = journal d0 ++ es
    ∧ OrmWrite [i] (Vals None s None None
                      (Some (map_record (lang_code (index_id b)) i)) None)
        ∈ es.
Proof.
  intros Hi Hb Hact Hrej.
  pose proof (selected_here _ _ _ _ Hi Hb Hact) as Hsel.
  destruct (recompute_json_run d0 self true)
    as (es & Hrun & _ & _ & _ & _ & Hforced).
  destruct (Hforced eq_refl i b) as [s Hs];
    [by apply elem_of_processed | done | done |].
  eexists _, _, _, s. split; [exact Hrun|]. split; [|split; [done|]].
  - simpl. rewrite (lookup_recompute_json_rows _ _ _ _ _ Hb Hsel).
    unfold recompute_row, recomputed. by rewrite Hrej, orb_true_r.
  - apply elem_of_app. by left.
Qed.

(** *** Running it again *)

Lemma recompute_row_index force i b :
  index_id (recompute_row force i b) = index_id b.
Proof.
  unfold recompute_row. destruct (rejected i b); [done|].
  apply recomputed_index.
Qed.

Lemma recompute_row_key force i b : key (recompute_row force i b) = key b.
Proof.
  unfold recompute_row. destruct (rejected i b); [done|].
  apply recomputed_key.
Qed.

Lemma recompute_row_idemp force i b :
  recompute_row force i (recompute_row force i b) = recompute_row force i b.
Proof.
  pose proof (recompute_row_index force i b) as Hidx.
  unfold recompute_row at 1. rewrite (rejected_index _ _ _ Hidx).
  unfold recompute_row. destruct (rejected i b) eqn:Hrej; [done|].
  apply recomputed_idemp.
Qed.

Lemma on_rows_idemp ids (f : Z → binding doc → binding doc) m :
  (∀ i b, f i (f i b) = f i b) →
  on_rows ids f (on_rows ids f m) = on_rows ids f m.
Proof.
  intros Hf. apply map_eq. intros i. rewrite !lookup_on_rows.
  destruct (m !! i) as [b|]; [|done]. simpl. f_equal.
  destruct (bool_decide (i ∈ ids)); [apply Hf | done].
Qed.

Section again.
Variables (m : gmap Z (binding doc)) (self : list Z) (force : bool).

Local Abbreviation m' :=
  (on_rows (processed m self) (recompute_row force) m).

Lemma processed_again : processed m' self = processed m self.
Proof.
  unfold processed. rewrite keys_on_rows; [done|].
  intros i b. apply recompute_row_key.
Qed.

Lemma refused_again i : refused m' i = refused m i.
Proof.
  unfold refused. rewrite lookup_on_rows.
  destruct (m !! i) as [b|]; [|done]. simpl.
  destruct (bool_decide (i ∈ processed m self)); [|done].
  apply rejected_index, recompute_row_index.
Qed.

Lemma quarantined_again : quarantined m' self = quarantined m self.
Proof.
  unfold quarantined. rewrite processed_again.
  apply list_filter_iff. intros i. by rewrite refused_again.
Qed.

Lemma error_lines_again ids : error_lines m' ids = error_lines m ids.
Proof.
  unfold error_lines.
  rewrite (list_filter_iff (λ i, refused m' i) (λ i, refused m i))
    by (intros i; by rewrite refused_again).
  apply list_fmap_ext. intros n i _.
  rewrite lookup_on_rows. destruct (m !! i) as [b|]; [|done]. simpl.
  destruct (bool_decide (i ∈ processed m self)); [|done].
  apply error_line_index, recompute_row_index.
Qed.

Lemma report_again : report m' self = report m self.
Proof. unfold report. by rewrite processed_again, error_lines_again. Qed.

Lemma quarantine_events_again :
  quarantine_events m' self = quarantine_events m self.
Proof. unfold quarantine_events. by rewrite quarantined_again. Qed.

End again.

(** After an unforced call, every accepted record holds its candidate. *)
Lemma settled m self i b :
  i ∈ processed m self →
  on_rows (processed m self) (recompute_row false) m !! i = Some b →
  rejected i b = false → data b = candidate i b.
Proof.
  intros Hi.
  rewrite lookup_on_rows. destruct (m !! i) as [b0|]; [|done]. simpl.
  rewrite bool_decide_eq_true_2 by done. intros [= <-].
  rewrite (rejected_index _ _ _ (recompute_row_index false i b0)).
  intros Hrej.
  rewrite (candidate_index _ _ _ (recompute_row_index false i b0)).
  unfold recompute_row. rewrite Hrej. by apply recomputed_data.
Qed.

(** C6, as the code has it.  Two calls of [recompute_json] in a row
    with [force_export = False] both return, with the same report; the
    second leaves every row exactly as the first left it and stores no
    document; the one thing it adds to the journal is the closing write
    of [sync_state = to_be_checked] on the refused records, which are
    in that state already, and when no candidate is refused it adds
    nothing: the transaction is the one the first call left. *)
Theorem recompute_json_twice d0 self :
  ∃ text d1 d2,
    recompute_json self false d0 = Ok text d1
    ∧ recompute_json self false d1 = Ok text d2
    ∧ rows d2 = rows d1
    ∧ journal d2 = journal d1 ++ quarantine_events (rows d0) self
    ∧ (quarantined (rows d0) self = [] → d2 = d1).
Proof.
  destruct (recompute_json_run d0 self false) as (es1 & Hrun1 & _).
  set (d1 := Db (on_rows (processed (rows d0) self) (recompute_row false)
                   (rows d0))
                (journal d0 ++ es1 ++ quarantine_events (rows d0) self))
    in Hrun1.
  destruct (recompute_json_run d1 self false)
    as (es2 & Hrun2 & _ & _ & _ & Hquiet & _).
  assert (Hes2 : es2 = []).
  { apply Hquiet; [done|]. intros i b Hi Hb Hrej.
    unfold d1 in Hi, Hb. simpl in Hi, Hb.
    rewrite processed_again in Hi.
    by apply (settled (rows d0) self). }
  subst es2. cbn [rows journal d1] in Hrun2.
  rewrite report_again, processed_again, quarantine_events_again
    in Hrun2.
  rewrite on_rows_idemp in Hrun2 by apply recompute_row_idemp.
  eexists _, d1, _. split; [exact Hrun1|]. split; [exact Hrun2|].
  split; [done|]. split; [done|].
  intros Hq. unfold d1, quarantine_events. rewrite Hq. simpl.
  by rewrite !app_nil_r.
Qed.

End recompute.

(** ** The text of the report of [synchronize]

    The two lists of ids can be read back from the report: the decimal
    text of an integer has neither comma nor bracket, so the text has one
    reading only. *)
Section report_reading.

Implicit Types (s t : string) (l : list string) (c : Ascii.ascii).

Lemma append_cons c s t : String c s +:+ t = String c (s +:+ t).
Proof. reflexivity. Qed.

Lemma append_nil_l t : "" +:+ t = t.
Proof. reflexivity. Qed.

Lemma append_nil_r s : s +:+ "" = s.
Proof. induction s as [|c s IH]; [done|]. by rewrite append_cons, IH. Qed.

Local Ltac unfold_append :=
  repeat first [rewrite append_cons | rewrite append_nil_l].

Lemma append_assoc s1 s2 s3 : (s1 +:+ s2) +:+ s3 = s1 +:+ s2 +:+ s3.
Proof.
  induction s1 as [|c s1 IH]; [done|]. by rewrite !append_cons, IH.
Qed.

(** Two plain texts, each followed by a closing character, are equal when
    the whole texts are. *)
Lemma plain_prefix_inj s1 s2 t1 t2 :
  plain s1 → plain s2 → closed t1 → closed t2 →
  s1 +:+ t1 = s2 +:+ t2 → s1 = s2 ∧ t1 = t2.
Proof.
  revert s2. induction s1 as [|c1 s1 IH]; intros [|c2 s2];
    rewrite ?append_cons, ?append_nil_l; simpl.
  - done.
  - intros _ [Hc _]%andb_True Ht1 _ ->. simpl in Ht1.
    by apply negb_True in Hc.
  - intros [Hc _]%andb_True _ _ Ht2 <-. simpl in Ht2.
    by apply negb_True in Hc.
  - intros [_ Hs1]%andb_True [_ Hs2]%andb_True Ht1 Ht2 [= -> Heq].
    destruct (IH s2 Hs1 Hs2 Ht1 Ht2 Heq) as [-> ->]. done.
Qed.

Lemma concat_cons_append s l t :
  String.concat ", " (s :: l) +:+ t
  = s +:+ match l with
          | [] => t
          | _ => ", " +:+ String.concat ", " l +:+ t
          end.
Proof.
  destruct l as [|s' l]; [done|].
  change (String.concat ", " (s :: s' :: l))
    with (s +:+ ", " +:+ String.concat ", " (s' :: l)).
  by rewrite !append_assoc.
Qed.

Lemma token_head s l t :
  token s → ∃ c r, String.concat ", " (s :: l) +:+ t = String c r
                   ∧ ¬ closes c.
Proof.
  intros [Hs Hne]. rewrite concat_cons_append.
  destruct s as [|c s]; [done|]. simpl in Hs.
  apply andb_True in Hs as [Hc _]. apply negb_True in Hc.
  rewrite append_cons. by eexists _, _.
Qed.

(** A list of tokens joined by [", "] and closed by a bracket is read in
    one way. *)
Lemma join_inj l1 l2 t1 t2 :
  Forall token l1 → Forall token l2 →
  String.concat ", " l1 +:+ "]" +:+ t1 = String.concat ", " l2 +:+ "]" +:+ t2 →
  l1 = l2 ∧ t1 = t2.
Proof.
  revert l2. induction l1 as [|s1 l1 IH]; intros [|s2 l2] Hl1 Hl2.
  - simpl. unfold_append. by intros [= ->].
  - apply Forall_cons in Hl2 as [Hs2 _].
    destruct (token_head s2 l2 ("]" +:+ t2) Hs2) as (c & r & -> & Hc).
    simpl. unfold_append. intros [= <- _]. by destruct Hc.
  - apply Forall_cons in Hl1 as [Hs1 _].
    destruct (token_head s1 l1 ("]" +:+ t1) Hs1) as (c & r & -> & Hc).
    simpl. unfold_append. intros [= -> _]. by destruct Hc.
  - apply Forall_cons in Hl1 as [[Hs1 _] Hl1].
    apply Forall_cons in Hl2 as [[Hs2 _] Hl2].
    rewrite !concat_cons_append. intros Heq.
    apply plain_prefix_inj in Heq as [-> Heq]; [|done|done|..].
    + destruct l1 as [|s1' l1], l2 as [|s2' l2];
        repeat first [rewrite append_cons in Heq | rewrite append_nil_l in Heq].
      * by injection Heq as ->.
      * done.
      * done.
      * injection Heq as Heq.
        by destruct (IH (s2' :: l2) Hl1 Hl2 Heq) as [-> ->].
    + by destruct l1.
    + by destruct l2.
Qed.

Lemma pretty_N_go_plain (x : N) s : plain s → plain (pretty_N_go x s).
Proof.
  revert s. induction (N.lt_wf_0 x) as [x _ IH]; intros s Hs.
  destruct (decide (x = 0%N)) as [->|Hx]; [by rewrite pretty_N_go_0|].
  rewrite pretty_N_go_step by lia. apply IH; [apply N.div_lt; lia|].
  simpl. apply andb_True. split; [|done].
  unfold pretty_N_char. by repeat case_match.
Qed.

Lemma pretty_N_go_nonempty (x : N) s : s ≠ "" → pretty_N_go x s ≠ "".
Proof.
  revert s. induction (N.lt_wf_0 x) as [x _ IH]; intros s Hs.
  destruct (decide (x = 0%N)) as [->|Hx]; [by rewrite pretty_N_go_0|].
  rewrite pretty_N_go_step by lia. apply IH; [apply N.div_lt; lia|done].
Qed.

Lemma pretty_N_token (x : N) : token (pretty x).
Proof.
  unfold pretty, pretty_N. case_decide as Hx; [done|]. split.
  - by apply pretty_N_go_plain.
  - rewrite pretty_N_go_step by lia. by apply pretty_N_go_nonempty.
Qed.

Lemma pretty_Z_token (z : Z) : token (pretty z).
Proof.
  destruct z as [|p|p].
  - done.
  - apply (pretty_N_token (Npos p)).
  - destruct (pretty_N_token (Npos p)) as [Hp _]. split; [|done].
    unfold pretty, pretty_Z. simpl. done.
Qed.

Lemma repr_ids_inj (xs ys : list Z) t1 t2 :
  repr_ids xs +:+ t1 = repr_ids ys +:+ t2 → xs = ys ∧ t1 = t2.
Proof.
  unfold repr_ids. rewrite !append_assoc. unfold_append.
  intros [= Heq].
  apply join_inj in Heq as [Heq ->].
  - split; [|done]. by apply (inj (fmap pretty)) in Heq.
  - apply Forall_fmap, Forall_forall. intros z _. apply pretty_Z_token.
  - apply Forall_fmap, Forall_forall. intros z _. apply pretty_Z_token.
Qed.

(** The report of [synchronize] names its two lists. *)
Lemma sync_report_inj (xs ys xs' ys' : list Z) :
  "Exported ids : " +:+ repr_ids xs +:+ nl
    +:+ "Deleted ids : " +:+ repr_ids ys
  = "Exported ids : " +:+ repr_ids xs' +:+ nl
      +:+ "Deleted ids : " +:+ repr_ids ys' →
  xs = xs' ∧ ys = ys'.
Proof.
  intros Heq. apply (inj (String.append _)) in Heq.
  apply repr_ids_inj in Heq as [-> Heq]. split; [done|].
  apply (inj (String.append _)), (inj (String.append _)) in Heq.
  rewrite <- (append_nil_r (repr_ids ys)),
    <- (append_nil_r (repr_ids ys')) in Heq.
  by apply repr_ids_inj in Heq as [-> _].
Qed.

End report_reading.

(** ** The synchronizer *)
Section synchronizer.

Context {doc : Type} `{!EqDecision doc}.
Context `{!Environment doc} `{!Components doc}.
Implicit Types (d : db doc) (m : gmap Z (binding doc)).
Implicit Types (self ids : list Z) (i : Z) (w : work) (u : usage).
Implicit Types (run : work → gmap Z (binding doc)
                      → exn + gmap Z (binding doc)).

Lemma run_component_ok u run w d :
  well_behaved run →
  ∃ m', run_component u run w d
        = Ok () (Db m' (journal d ++ [ComponentRun u w]))
    ∧ keys m' = keys (rows d).
Proof.
  intros Hrun. destruct (Hrun w (rows d)) as (m' & Hm' & Hk).
  exists m'. split; [|done]. unfold run_component. by rewrite Hm'.
Qed.

Lemma pass_keeps_keys u run :
  well_behaved run →
  keeps_keys (λ w ids, bind (run_component u run w)
                         (λ _, ret (ids ++ w_records w))).
Proof.
  intros Hrun w ids d ids' d'.
  destruct (run_component_ok u run w d Hrun) as (m' & Hm' & Hk).
  rewrite (bind_Ok _ _ _ _ _ Hm'). unfold ret. by intros [= _ <-].
Qed.

(** One pass: the capability is run on every group, in order, and the
    ids of the groups are collected. *)
Lemma pass_run u run (gs : list work) ids d :
  well_behaved run →
  ∃ d', for_each gs (λ w ids, bind (run_component u run w)
                                (λ _, ret (ids ++ w_records w))) ids d
        = Ok (ids ++ (gs ≫= w_records)) d'
    ∧ journal d' = journal d ++ (ComponentRun u <$> gs)
    ∧ keys (rows d') = keys (rows d).
Proof.
  intros Hrun. revert ids d.
  induction gs as [|w gs IH]; intros ids d.
  - exists d. simpl. by rewrite !app_nil_r.
  - destruct (run_component_ok u run w d Hrun) as (m' & Hm' & Hk).
    destruct (IH (ids ++ w_records w)
                (Db m' (journal d ++ [ComponentRun u w])))
      as (d' & Hrest & Hj & Hk').
    exists d'. split; [|split].
    + simpl. rewrite bind_assoc, (bind_Ok _ _ _ _ _ Hm').
      unfold bind at 1, ret at 1. rewrite Hrest.
      by rewrite <- app_assoc.
    + rewrite Hj. simpl. by rewrite <- app_assoc.
    + by rewrite Hk'.
Qed.

(** The table a pass leaves is the one its capability computes, group
    after group. *)
Lemma pass_rows u run (gs : list work) ids ids' d d' :
  for_each gs (λ w ids, bind (run_component u run w)
                          (λ _, ret (ids ++ w_records w))) ids d
  = Ok ids' d' →
  run_groups run gs (rows d) = inr (rows d').
Proof.
  revert ids d. induction gs as [|w gs IH]; intros ids d; simpl.
  - unfold ret. by intros [= _ <-].
  - rewrite bind_assoc. unfold bind at 1, run_component.
    destruct (run w (rows d)) as [e|m']; [done|].
    unfold bind at 1, ret at 1. apply IH.
Qed.

(** The two passes of [synchronize], on the groups of the table it
    starts from. *)
Lemma synchronize_passes d self :
  well_behaved exporter_run → well_behaved deleter_run →
  ∃ d' m,
    synchronize self d
    = Ok ("Exported ids : "
            +:+ repr_ids (groups (keys (rows d)) self true ≫= w_records)
            +:+ nl +:+ "Deleted ids : "
            +:+ repr_ids (groups (keys (rows d)) self false ≫= w_records))
         d'
    ∧ journal d'
      = journal d
          ++ (ComponentRun se_record_exporter
                <$> groups (keys (rows d)) self true)
          ++ (ComponentRun record_exporter_deleter
                <$> groups (keys (rows d)) self false)
    ∧ run_groups exporter_run (groups (keys (rows d)) self true) (rows d)
      = inr m
    ∧ run_groups deleter_run (groups (keys (rows d)) self false) m
      = inr (rows d').
Proof.
  intros Hexp Hdel.
  destruct (pass_run se_record_exporter exporter_run
              (groups (keys (rows d)) self true) [] d Hexp)
    as (d1 & Hpass1 & Hj1 & Hk1).
  destruct (pass_run record_exporter_deleter deleter_run
              (groups (keys (rows d)) self false) [] d1 Hdel)
    as (d2 & Hpass2 & Hj2 & Hk2).
  exists d2, (rows d1). split; [|split; [|split]].
  - unfold synchronize.
    erewrite bind_Ok; last first.
    { rewrite _work_by_index_groups by by apply pass_keeps_keys.
      exact Hpass1. }
    erewrite bind_Ok; last first.
    { rewrite _work_by_index_groups by by apply pass_keeps_keys.
      rewrite Hk1. exact Hpass2. }
    done.
  - by rewrite Hj2, Hj1, <- app_assoc.
  - by eapply pass_rows.
  - by eapply pass_rows.
Qed.

Lemma Ok_value {A} (a a' : A) d d' : Ok a d = Ok a' d' → a = a'.
Proof. by intros [= -> _]. Qed.

(** The lists of the report are read off its text. *)
Lemma synchronize_report_ids d self (xs ys xs' ys' : list Z) d1 d2 :
  synchronize self d
  = Ok ("Exported ids : " +:+ repr_ids xs +:+ nl
          +:+ "Deleted ids : " +:+ repr_ids ys) d1 →
  synchronize self d
  = Ok ("Exported ids : " +:+ repr_ids xs' +:+ nl
          +:+ "Deleted ids : " +:+ repr_ids ys') d2 →
  xs' = xs ∧ ys' = ys.
Proof.
  intros -> Heq%Ok_value. by apply sync_report_inj in Heq as [-> ->].
Qed.


End synchronizer.

(** ** Runs on the sample installation *)

Lemma sample_exists (ids : list Z) :
  Forall (λ i, bool_decide (i ∈ [1; 2; 3; 4])) ids →
  ∀ i, i ∈ ids → is_Some (rows Sample.start !! i).
Proof.
  intros Hall i Hi. apply (proj1 (Forall_forall _ _) Hall) in Hi.
  apply bool_decide_unpack in Hi.
  repeat (apply elem_of_cons in Hi as [->|Hi]; [by eexists|]).
  by apply not_elem_of_nil in Hi.
Qed.

(** The partitioner yields groups without records: binding 1 is on index
    10 of backend 100 and binding 2 on index 20 of backend 200, and the
    pairs (100, 20) and (200, 10) are visited all the same. *)
Lemma work_list_empty_group :
  ∃ w, work_list [1; 2] true Sample.start
       = Ok [Work 100 10 [1]; w; Work 200 10 []; Work 200 20 [2]]
            Sample.start
    ∧ w_records w = [].
Proof. exists (Work 100 20 []). split; reflexivity. Qed.

(** Deactivating binding 2, which is [new], with a [sync_state] in the
    same write: the binding takes the state of the write. *)
Lemma write_new_takes_supplied_state :
  rows Sample.start !! 2 = Some (Binding 20 new None None "b" true)
  ∧ ∃ d', write [2] (Vals None (Some done) None None None (Some false))
            Sample.start = Ok true d'
      ∧ rows d' !! 2 = Some (Binding 20 done None None "b" false).
Proof. split; [reflexivity|]. eexists. split; reflexivity. Qed.

(** The candidate of binding 2 is refused: a second unforced call writes
    [to_be_checked] on it again. *)
Lemma recompute_json_second_call_writes :
  ∃ text d1 d2,
    recompute_json [2] false Sample.start = Ok text d1
    ∧ recompute_json [2] false d1 = Ok text d2
    ∧ journal d2
      = journal d1
          ++ [OrmWrite [2] (Vals None (Some to_be_checked) None None None None)].
Proof. eexists _, _, _. repeat split; vm_compute; reflexivity. Qed.

(** A forced call stores nothing on binding 2, whose candidate (the empty
    document) is refused, and does not look at binding 3, which is
    inactive. *)
Lemma recompute_json_force_skips_refused :
  ∃ text d',
    recompute_json [2; 3] true Sample.start = Ok text d'
    ∧ map_record (lang_code 20) 2 = ""
    ∧ rows d' !! 2 = Some (Binding 20 to_be_checked None None "b" true)
    ∧ rows d' !! 3 = Some (Binding 10 done None None "c" false)
    ∧ journal d'
      = [OrmWrite [2] (Vals None (Some to_be_checked) None None None None)].
Proof. eexists _, _. repeat split; vm_compute; reflexivity. Qed.

Lemma mark_done_well_behaved : well_behaved Sample.mark_done.
Proof.
  intros w m. eexists. split; [reflexivity|]. by apply keys_write_rows.
Qed.

Lemma get_export_data_reads_witness :
  rows Sample.start !! 1 = Some (Binding 10 done None None "a" true)
  ∧ get_export_data [1] Sample.start = Ok "a" Sample.start.
Proof.
  split; [reflexivity|].
  exact (get_export_data_reads Sample.start 1 _ eq_refl).
Defined.

Lemma unlink_all_or_nothing_witness :
  (∀ i, i ∈ [2; 1; 4] → is_Some (rows Sample.start !! i))
  ∧ ((∃ d', unlink [2; 1; 4] Sample.start = Ok true d')
       ↔ ∀ i, i ∈ [2; 1; 4] → ∃ b, rows Sample.start !! i = Some b
           ∧ (sync_state b = new
              ∨ (sync_state b = done ∧ active b = false)))
  ∧ (∀ d', unlink [2; 1; 4] Sample.start = Ok true d' →
       ∀ i, i ∈ [2; 1; 4] → rows d' !! i = None)
  ∧ ((∃ d', unlink [2; 1; 4] Sample.start = Ok true d')
     ∨ ∃ pre i post b, [2; 1; 4] = pre ++ i :: post
         ∧ Forall (deletable_in (rows Sample.start)) pre
         ∧ rows Sample.start !! i = Some b
         ∧ ¬ (sync_state b = new
              ∨ (sync_state b = done ∧ active b = false))
         ∧ unlink [2; 1; 4] Sample.start
           = Raise (UserError
               (if active b
                then "You cannot delete the binding '"
                       +:+ display_name i +:+ "', unactivate it first."
                else "You cannot delete the binding '"
                       +:+ display_name i
                       +:+ "', wait until it's synchronized."))
               Sample.start).
Proof.
  assert (Hex : ∀ i, i ∈ [2; 1; 4] → is_Some (rows Sample.start !! i)).
  { apply sample_exists. repeat constructor. }
  split; [exact Hex|].
  exact (unlink_all_or_nothing Sample.start [2; 1; 4] Hex).
Defined.

Lemma write_deactivation_witness :
  (∀ j, j ∈ [1; 2] → is_Some (rows Sample.start !! j))
  ∧ 1 ∈ [1; 2]
  ∧ rows Sample.start !! 1 = Some (Binding 10 done None None "a" true)
  ∧ ∃ d' b', write [1; 2] (Vals None None None None None (Some false))
               Sample.start = Ok true d'
      ∧ rows d' !! 1 = Some b'
      ∧ sync_state b' = to_update
      ∧ data b' = "a"
      ∧ active b' = false.
Proof.
  assert (Hex : ∀ j, j ∈ [1; 2] → is_Some (rows Sample.start !! j)).
  { apply sample_exists. repeat constructor. }
  assert (Hin : 1 ∈ [1; 2]) by apply list_elem_of_here.
  split; [exact Hex|]. split; [exact Hin|]. split; [reflexivity|].
  destruct (write_deactivation Sample.start [1; 2]
              (Vals None None None None None (Some false)) 1
              (Binding 10 done None None "a" true) Hex Hin eq_refl eq_refl)
    as (d' & b' & Hw & Hrow & Hst & _ & _ & _ & _ & _ & Hdata & Hact).
  exists d', b'. repeat split; try done. by apply Hst.
Defined.

Lemma write_deactivation_overrides_witness :
  (∀ j, j ∈ [1] → is_Some (rows Sample.start !! j))
  ∧ 1 ∈ [1]
  ∧ rows Sample.start !! 1 = Some (Binding 10 done None None "a" true)
  ∧ ∃ d' b', write [1] (Vals None (Some scheduled) None None None
                          (Some false)) Sample.start = Ok true d'
      ∧ rows d' !! 1 = Some b'
      ∧ sync_state b' = to_update.
Proof.
  assert (Hex : ∀ j, j ∈ [1] → is_Some (rows Sample.start !! j)).
  { apply sample_exists. repeat constructor. }
  assert (Hin : 1 ∈ [1]) by apply list_elem_of_here.
  split; [exact Hex|]. split; [exact Hin|]. split; [reflexivity|].
  refine (write_deactivation_overrides Sample.start [1]
            (Vals None (Some scheduled) None None None (Some false)) 1
            (Binding 10 done None None "a" true) scheduled
            Hex Hin eq_refl _ eq_refl eq_refl).
  discriminate.
Defined.

Lemma recompute_json_isolates_failures_witness :
  2 ∈ [1; 2; 3]
  ∧ rows Sample.start !! 2 = Some (Binding 20 new None None "b" true)
  ∧ rejected 2 (Binding 20 new None None "b" true) = true
  ∧ ∃ d' es lines,
      recompute_json [1; 2; 3] false Sample.start
      = Ok ("Validation errors" +:+ nl +:+ String.concat nl lines) d'
      ∧ "se.binding(2,): empty" ∈ lines
      ∧ rows d' !! 2 = Some (Binding 20 to_be_checked None None "b" true)
      ∧ rows d' !! 1 = Some (Binding 10 to_update None None "doc" true)
      ∧ journal d'
        = journal Sample.start ++ es
            ++ [OrmWrite (quarantined (rows Sample.start) [1; 2; 3])
                  (Vals None (Some to_be_checked) None None None None)].
Proof.
  assert (Hin : 2 ∈ [1; 2; 3])
    by apply list_elem_of_further, list_elem_of_here.
  assert (Hrej : rejected 2 (Binding 20 new None None "b" true) = true)
    by reflexivity.
  split; [exact Hin|]. split; [reflexivity|]. split; [exact Hrej|].
  destruct (recompute_json_isolates_failures Sample.start [1; 2; 3] false 2
              (Binding 20 new None None "b" true) Hin eq_refl eq_refl
              Hrej)
    as (d' & es & lines & Hrun & Hline & Hrow & Hothers & Hj & _).
  exists d', es, lines. repeat split; try done.
  apply (Hothers 1 (Binding 10 done None None "a" true)); [|done..].
  split; [apply list_elem_of_here|]. by eexists.
Defined.

Lemma recompute_json_force_witness :
  1 ∈ [1; 2]
  ∧ rows Sample.start !! 1 = Some (Binding 10 done None None "a" true)
  ∧ rejected 1 (Binding 10 done None None "a" true) = false
  ∧ ∃ text d' es s,
      recompute_json [1; 2] true Sample.start = Ok text d'
      ∧ rows d' !! 1 = Some (Binding 10 to_update None None "doc" true)
      ∧ journal d' = journal Sample.start ++ es
      ∧ OrmWrite [1] (Vals None s None None (Some "doc") None) ∈ es.
Proof.
  assert (Hin : 1 ∈ [1; 2]) by apply list_elem_of_here.
  assert (Hrej : rejected 1 (Binding 10 done None None "a" true) = false)
    by reflexivity.
  split; [exact Hin|]. split; [reflexivity|]. split; [exact Hrej|].
  exact (recompute_json_force Sample.start [1; 2] 1
           (Binding 10 done None None "a" true) Hin eq_refl eq_refl Hrej).
Defined.


(** The deletion guard on the sample: binding 1 is synchronized and
    active, binding 4 is inactive and waits for its removal from the
    index, bindings 2 and 3 may go. *)
Example unlink_active :
  unlink [2; 1; 4] Sample.start
  = Raise (UserError
      "You cannot delete the binding 'binding 1', unactivate it first.")
      Sample.start.
Proof. reflexivity. Qed.

Example unlink_not_synchronized :
  unlink [4; 1] Sample.start
  = Raise (UserError
      "You cannot delete the binding 'binding 4', wait until it's synchronized.")
      Sample.start.
Proof. reflexivity. Qed.

Example unlink_new_and_removed :
  ∃ d', unlink [2; 3] Sample.start = Ok true d'
    ∧ dom (rows d') = {[1; 4]}
    ∧ journal d' = [OrmUnlink [2; 3]].
Proof. eexists. repeat split; vm_compute; reflexivity. Qed.

(** Recomputing the whole sample: binding 1 gets its document, binding 2
    is refused, the inactive ones are not visited. *)
Example recompute_json_sample :
  ∃ d', recompute_json [1; 2; 3; 4] false Sample.start
        = Ok ("Validation errors" +:+ nl +:+ "se.binding(2,): empty") d'
    ∧ journal d'
      = [OrmWrite [1] (Vals None (Some to_update) None None (Some "doc") None);
         OrmWrite [2] (Vals None (Some to_be_checked) None None None None)].
Proof. eexists. split; vm_compute; reflexivity. Qed.

(** The same run, evaluated. *)
Example synchronize_sample :
  ∃ d', synchronize [1; 2; 3; 4] Sample.start
        = Ok ("Exported ids : [1, 2]" +:+ nl +:+ "Deleted ids : [3, 4]") d'.
Proof. eexists. vm_compute. reflexivity. Qed.

(** The exporter and the deleter of the sample have been at work: all
    four bindings are marked as synchronized, one group after the other,
    the pairs of a backend and an index of another backend included. *)
Example synchronize_sample_table :
  ∃ d', synchronize [1; 2; 3; 4] Sample.start = Ok
          ("Exported ids : [1, 2]" +:+ nl +:+ "Deleted ids : [3, 4]") d'
    ∧ sync_state <$> rows d'
      = {[ 1 := done; 2 := done; 3 := done; 4 := done ]}
    ∧ journal d'
      = [ComponentRun se_record_exporter (Work 100 10 [1]);
         ComponentRun se_record_exporter (Work 100 20 []);
         ComponentRun se_record_exporter (Work 200 10 []);
         ComponentRun se_record_exporter (Work 200 20 [2]);
         ComponentRun record_exporter_deleter (Work 100 10 [3]);
         ComponentRun record_exporter_deleter (Work 100 20 []);
         ComponentRun record_exporter_deleter (Work 200 10 []);
         ComponentRun record_exporter_deleter (Work 200 20 [4])].
Proof. eexists. split; [|split]; vm_compute; reflexivity. Qed.


(** * Further properties *)

(** ** [write] and [unlink], continued *)
Section entry_points_more.

Context {doc : Type} `{!EqDecision doc} `{!Environment doc}.
Implicit Types (d : db doc) (m : gmap Z (binding doc)).
Implicit Types (b : binding doc) (v : vals doc).
Implicit Types (self ids : list Z) (i j : Z).

Lemma deactivates_not v : v_active v ≠ Some false → deactivates v = false.
Proof. unfold deactivates. by destruct (v_active v) as [[]|]. Qed.

(** A write that does not deactivate goes to the ORM as it came, in one
    call on the whole of [self]: every record gets the fields of the
    dictionary, and a record keeps its [sync_state] when the dictionary
    has none.  So setting [active] back to [True] flags nothing. *)
Theorem write_without_deactivation d self v :
  (∀ i, i ∈ self → is_Some (rows d !! i)) →
  v_active v ≠ Some false →
  ∃ d', write self v d = Ok true d'
    ∧ journal d' = journal d ++ [OrmWrite self v]
    ∧ (∀ i b, i ∈ self → rows d !! i = Some b →
         rows d' !! i = Some (apply_vals v b))
    ∧ (v_sync_state v = None →
       ∀ i b, rows d !! i = Some b →
         ∃ b', rows d' !! i = Some b' ∧ sync_state b' = sync_state b).
Proof.
  intros Hex Hv. eexists. split.
  { apply write_plain; [done|]. by apply deactivates_not. }
  split; [done|]. split.
  - intros i b Hi Hb. simpl. rewrite lookup_write_rows, Hb. simpl.
    by rewrite bool_decide_eq_true_2.
  - intros Hst i b Hb. simpl. rewrite lookup_write_rows, Hb. simpl.
    eexists. split; [done|]. case_bool_decide; [|done].
    unfold apply_vals. simpl. by rewrite Hst.
Qed.

Lemma write_run d self v :
  (∀ i, i ∈ self → is_Some (rows d !! i)) →
  ∃ ids1 v1 ids2,
    write self v d
    = Ok true (Db (write_rows ids2 v (write_rows ids1 v1 (rows d)))
                  (journal d
                   ++ (if deactivates v then [OrmWrite ids1 v1] else [])
                   ++ [OrmWrite ids2 v]))
    ∧ (∀ i, i ∈ ids1 → i ∈ self) ∧ (∀ i, i ∈ ids2 → i ∈ self).
Proof.
  intros Hex. destruct (deactivates v) eqn:Hv.
  - exists (not_new_of (rows d) self), (set_sync_state to_update v),
      (minus self (not_new_of (rows d) self)).
    split; [|split].
    + rewrite (write_deactivating _ _ _ Hex Hv). by rewrite <- app_assoc.
    + intros i Hi. by apply (proj1 (list_elem_of_filter _ _ _) Hi).
    + intros i Hi. by apply (proj1 (list_elem_of_filter _ _ _) Hi).
  - exists [], v, self. split; [|split; [by intros i ?%not_elem_of_nil|done]].
    by rewrite (write_plain _ _ _ Hex Hv).
Qed.

(** Whatever the dictionary, [write] on existing records returns, leaves
    every record outside [self] as it was, and neither adds nor removes
    a row. *)
Theorem write_frame d self v :
  (∀ i, i ∈ self → is_Some (rows d !! i)) →
  ∃ d', write self v d = Ok true d'
    ∧ (∀ i, i ∉ self → rows d' !! i = rows d !! i)
    ∧ (∀ i, is_Some (rows d' !! i) ↔ is_Some (rows d !! i)).
Proof.
  intros Hex.
  destruct (write_run d self v Hex) as (ids1 & v1 & ids2 & Hw & H1 & H2).
  eexists. split; [exact Hw|]. split.
  - intros i Hi. simpl. rewrite !lookup_write_rows.
    destruct (rows d !! i) as [b|]; [|done]. simpl.
    rewrite (bool_decide_eq_false_2 (i ∈ ids1)) by (intros ?; by apply Hi, H1).
    by rewrite (bool_decide_eq_false_2 (i ∈ ids2))
      by (intros ?; by apply Hi, H2).
  - intros i. simpl. by rewrite !write_rows_is_Some.
Qed.

(** A deactivating write makes two calls to the ORM: the first, with
    [sync_state = to_update] put into the dictionary, on the records of
    [self] that are not [new]; the second, with the dictionary as it
    came, on the records of [self] that are [new].  No record is in
    both. *)
Theorem write_deactivation_two_calls d self v :
  (∀ i, i ∈ self → is_Some (rows d !! i)) →
  v_active v = Some false →
  ∃ d' not_new rest,
    write self v d = Ok true d'
    ∧ journal d'
      = journal d ++ [OrmWrite not_new (set_sync_state to_update v);
                      OrmWrite rest v]
    ∧ (∀ i, i ∈ not_new
            ↔ i ∈ self ∧ ∃ b, rows d !! i = Some b ∧ sync_state b ≠ new)
    ∧ (∀ i, i ∈ rest
            ↔ i ∈ self ∧ ∃ b, rows d !! i = Some b ∧ sync_state b = new).
Proof.
  intros Hex Hv.
  exists (Db (write_rows (minus self (not_new_of (rows d) self)) v
                (write_rows (not_new_of (rows d) self)
                   (set_sync_state to_update v) (rows d)))
             ((journal d
               ++ [OrmWrite (not_new_of (rows d) self)
                     (set_sync_state to_update v)])
              ++ [OrmWrite (minus self (not_new_of (rows d) self)) v])),
    (not_new_of (rows d) self), (minus self (not_new_of (rows d) self)).
  split; [by apply write_deactivating, deactivates_spec|].
  split; [by rewrite <- app_assoc|]. split.
  - intros i. split.
    + intros Hi. pose proof Hi as [_ Hin]%list_elem_of_filter.
      split; [done|]. destruct (Hex i Hin) as [b Hb]. exists b.
      split; [done|]. by apply (elem_of_not_new_of _ _ _ _ Hb) in Hi as [_ ?].
    + intros [Hin (b & Hb & Hst)]. by apply (elem_of_not_new_of _ _ _ _ Hb).
  - intros i. unfold minus. rewrite list_elem_of_filter. split.
    + intros [Hnn Hin]. split; [done|]. destruct (Hex i Hin) as [b Hb].
      exists b. split; [done|].
      destruct (decide (sync_state b = new)) as [|Hst]; [done|].
      exfalso. apply Hnn. by apply (elem_of_not_new_of _ _ _ _ Hb).
    + intros [Hin (b & Hb & Hst)]. split; [|done].
      intros [_ ?]%(elem_of_not_new_of _ _ _ _ Hb). done.
Qed.

Lemma unlink_one_not_synchronized d i b :
  rows d !! i = Some b → sync_state b = to_update → active b = false →
  unlink [i] d = Raise (UserError (_msg_cannot_delete_not_synchronized i)) d.
Proof.
  intros Hb Hst Hact.
  rewrite (unlink_Raise d [] i [] b); [by rewrite Hact|done|done|].
  intros [Hnew|[Hdone _]]; congruence.
Qed.

(** Once a binding that is not [new] has been deactivated, [unlink]
    refuses it with the "wait until it's synchronized" message, whatever
    else the deactivating write carried; and [unlink] refuses any
    recordset of existing records it is part of. *)
Theorem deactivated_cannot_be_unlinked d self v i b :
  (∀ j, j ∈ self → is_Some (rows d !! j)) →
  i ∈ self → rows d !! i = Some b →
  sync_state b ≠ new →
  v_active v = Some false →
  ∃ d', write self v d = Ok true d'
    ∧ unlink [i] d'
      = Raise (UserError ("You cannot delete the binding '"
                            +:+ display_name i
                            +:+ "', wait until it's synchronized.")) d'
    ∧ ∀ ids, i ∈ ids → (∀ j, j ∈ ids → is_Some (rows d' !! j)) →
        ∃ msg, unlink ids d' = Raise (UserError msg) d'.
Proof.
  intros Hex Hi Hb Hst Hv.
  destruct (write_deactivating_row d self v i b Hex
              (deactivates_spec v Hv) Hi Hb) as (d' & Hw & Hrow).
  rewrite decide_False in Hrow by done.
  exists d'. split; [done|]. split.
  - apply (unlink_one_not_synchronized d' i _ Hrow); [done|].
    simpl. by rewrite Hv.
  - intros ids Hin Hex'.
    destruct (first_offender (rows d') ids Hex')
      as [Hall|(pre & j & post & bj & -> & Hpre & Hj & Hdel)].
    + apply (proj1 (Forall_forall _ _) Hall) in Hin as (b' & Hb' & Hdel).
      rewrite Hrow in Hb'. injection Hb' as <-.
      destruct Hdel as [Hd|[Hd _]]; simpl in Hd; done.
    + eexists. by apply unlink_Raise.
Qed.

(** A binding that is [new] can be deactivated and deleted right away,
    when the deactivating write carries no [sync_state]. *)
Theorem deactivated_new_can_be_unlinked d self v i b :
  (∀ j, j ∈ self → is_Some (rows d !! j)) →
  i ∈ self → rows d !! i = Some b →
  sync_state b = new →
  v_active v = Some false → v_sync_state v = None →
  ∃ d' d'', write self v d = Ok true d'
    ∧ unlink [i] d' = Ok true d''
    ∧ rows d'' !! i = None
    ∧ ∀ j, j ≠ i → rows d'' !! j = rows d' !! j.
Proof.
  intros Hex Hi Hb Hst Hv Hvs.
  destruct (write_deactivating_row d self v i b Hex
              (deactivates_spec v Hv) Hi Hb) as (d' & Hw & Hrow).
  rewrite decide_True in Hrow by done.
  exists d'. eexists. split; [done|]. split.
  - apply unlink_Ok. constructor; [|done]. eexists. split; [done|].
    left. simpl. by rewrite Hvs.
  - simpl. split.
    + by rewrite lookup_delete_eq.
    + intros j Hj. by rewrite lookup_delete_ne.
Qed.

Lemma unlink_checks_state d self u d1 :
  for_each self unlink_check () d = Ok u d1 → d1 = d.
Proof.
  revert d. induction self as [|i self IH]; intros d; simpl.
  - unfold ret. by intros [= _ ->].
  - unfold bind at 1. unfold unlink_check at 1. unfold bind at 1, read.
    destruct (rows d !! i) as [b|]; [|done].
    destruct (bool_decide _ || _).
    + unfold ret. apply IH.
    + by destruct (active b).
Qed.

(** When [unlink] returns, it has made one call to the ORM, on the whole
    of [self], and every record outside [self] is as it was. *)
Theorem unlink_frame d self d' :
  unlink self d = Ok true d' →
  journal d' = journal d ++ [OrmUnlink self]
  ∧ ∀ i, i ∉ self → rows d' !! i = rows d !! i.
Proof.
  unfold unlink, bind.
  destruct (for_each self unlink_check () d) as [u d1|] eqn:Hchecks; [|done].
  apply unlink_checks_state in Hchecks as ->.
  unfold orm_unlink. intros [= <-]. split; [done|].
  intros i Hi. simpl. rewrite lookup_unlink_rows.
  by rewrite bool_decide_eq_false_2.
Qed.

End entry_points_more.

(** ** The work partitioner, continued *)
Section partitioner_more.

Context {doc : Type} `{!EqDecision doc} `{!Environment doc}.
Implicit Types (d : db doc) (m : gmap Z (binding doc)).
Implicit Types (b : binding doc) (k : gmap Z (Z * bool)).
Implicit Types (self ids : list Z) (i j : Z) (w : work).

Lemma filter_split {A} (P Q : A → Prop)
    `{!∀ x, Decision (P x)} `{!∀ x, Decision (Q x)} (l : list A) :
  (∀ x, P x → Q x → False) →
  filter (λ x, P x ∨ Q x) l ≡ₚ filter P l ++ filter Q l.
Proof.
  intros Hexcl. induction l as [|x l IH]; [done|].
  rewrite !filter_cons. destruct (decide (P x)), (decide (Q x)).
  - exfalso. eauto.
  - rewrite decide_True by auto. simpl. by rewrite IH.
  - rewrite decide_True by auto. rewrite IH. apply Permutation_middle.
  - rewrite decide_False by tauto. done.
Qed.

Lemma filter_ext_in {A} (P Q : A → Prop)
    `{!∀ x, Decision (P x)} `{!∀ x, Decision (Q x)} (l : list A) :
  (∀ x, x ∈ l → P x ↔ Q x) → filter P l = filter Q l.
Proof.
  induction l as [|x l IH]; intros Hl; [done|].
  rewrite !filter_cons.
  rewrite IH by (intros y Hy; by apply Hl, list_elem_of_further).
  pose proof (Hl x (list_elem_of_here _ _)).
  destruct (decide (P x)), (decide (Q x)); tauto.
Qed.

(** Being in the group of a backend and an index, read on the record's
    own index and backend. *)
Lemma in_group_index k backend index (a : bool) i :
  in_group k backend index a i
  ↔ index_of k i = index ∧ in_group k backend (index_of k i) a i.
Proof.
  rewrite !in_group_spec. unfold index_of. split.
  - intros (idx & Hk & Hb & Hx). rewrite Hk. simpl. split; [done|].
    by exists idx.
  - intros [Hx (idx & Hk & Hb & _)]. rewrite Hk in Hx. simpl in Hx.
    by exists idx.
Qed.

Lemma in_group_backend k backend (a : bool) i :
  in_group k backend (index_of k i) a i
  ↔ backend_id (index_of k i) = backend
    ∧ in_group k (backend_id (index_of k i)) (index_of k i) a i.
Proof.
  rewrite !in_group_spec. unfold index_of. split.
  - intros (idx & Hk & Hb & Hx). rewrite Hk. simpl. split; [done|].
    by exists idx.
  - intros [Hb (idx & Hk & _ & _)]. rewrite Hk in Hb. simpl in Hb.
    exists idx. by rewrite Hk.
Qed.

Section one_table.
Variables (k : gmap Z (Z * bool)) (a : bool) (recs : list Z).

Lemma indexes_permutation backend (indexes : list Z) :
  NoDup indexes →
  (indexes ≫= λ index, filter (λ i, in_group k backend index a i) recs)
  ≡ₚ filter (λ i, index_of k i ∈ indexes
                  ∧ in_group k backend (index_of k i) a i) recs.
Proof.
  induction 1 as [|index indexes Hnew _ IH].
  - simpl. rewrite filter_none; [done|]. by intros i _ [?%not_elem_of_nil _].
  - simpl. rewrite IH, <- filter_split.
    + erewrite list_filter_iff; [done|]. intros i. simpl.
      rewrite elem_of_cons, (in_group_index k backend index).
      intuition congruence.
    + intros i [Hx _]%in_group_index [Hin _]. congruence.
Qed.

Lemma backends_permutation (backends : list Z) :
  NoDup backends →
  (backends ≫= λ backend,
     filter (λ i, in_group k backend (index_of k i) a i) recs)
  ≡ₚ filter (λ i, backend_id (index_of k i) ∈ backends
                  ∧ in_group k (backend_id (index_of k i))
                      (index_of k i) a i) recs.
Proof.
  induction 1 as [|backend backends Hnew _ IH].
  - simpl. rewrite filter_none; [done|]. by intros i _ [?%not_elem_of_nil _].
  - simpl. rewrite IH, <- filter_split.
    + erewrite list_filter_iff; [done|]. intros i. simpl.
      rewrite elem_of_cons, (in_group_backend k backend).
      intuition congruence.
    + intros i [Hx _]%in_group_backend [Hin _]. congruence.
Qed.
End one_table.

Lemma in_own_group_picked m (a : bool) i :
  in_group (keys m) (backend_id (index_of (keys m) i))
    (index_of (keys m) i) a i
  ↔ picked m a i.
Proof.
  rewrite in_group_spec. unfold picked, index_of. rewrite lookup_keys.
  destruct (m !! i) as [b|]; simpl.
  - rewrite bool_decide_spec. split.
    + by intros (idx & [= _ <-] & _).
    + intros <-. by exists (index_id b).
  - split; [by intros (? & ? & _)|done].
Qed.

(** The records of all groups together, against [self]. *)
Lemma groups_records_permutation m self (a : bool) :
  groups (keys m) self a ≫= w_records ≡ₚ filter (λ i, picked m a i) self.
Proof.
  unfold groups.
  set (k := keys m). set (recs := filter (λ i, is_Some (k !! i)) self).
  set (indexes := unique (index_of k <$> recs)).
  transitivity
    (unique ((λ i, backend_id (index_of k i)) <$> recs) ≫= λ backend,
       filter (λ i, in_group k backend (index_of k i) a i) recs).
  - induction (unique ((λ i, backend_id (index_of k i)) <$> recs))
      as [|backend backends IH]; [done|].
    simpl. rewrite bind_app, IH. apply Permutation_app; [|done].
    rewrite list_fmap_bind.
    rewrite (indexes_permutation k a recs backend indexes)
      by apply NoDup_unique.
    erewrite filter_ext_in; [done|]. intros i Hi. simpl.
    split; [tauto|]. intros Hg. split; [|done].
    apply elem_of_unique, list_elem_of_fmap. by exists i.
  - rewrite backends_permutation by apply NoDup_unique.
    unfold recs. rewrite list_filter_filter.
    erewrite filter_ext_in; [done|]. intros i Hin. simpl. subst k.
    rewrite in_own_group_picked. split; [by intros [[_ ?] _]|].
    intros Hp.
    assert (Hi : is_Some (keys m !! i)).
    { unfold picked in Hp. rewrite lookup_keys. by destruct (m !! i). }
    split; [split; [|done]|done].
    apply elem_of_unique, list_elem_of_fmap. exists i. split; [done|].
    by apply elem_of_existing.
Qed.

(** Every group [_work_by_index] yields is a selection of [self] that
    keeps the order of [self], and holds only existing bindings that are
    on the index of the group, whose index belongs to the backend of the
    group, and whose [active] flag is the one asked for. *)
Theorem work_list_groups_homogeneous d self (a : bool) :
  ∃ ws, work_list self a d = Ok ws d
    ∧ ∀ w, w ∈ ws →
        w_records w `sublist_of` self
        ∧ ∀ i, i ∈ w_records w →
            ∃ b, rows d !! i = Some b
              ∧ index_id b = w_index w
              ∧ backend_id (index_id b) = w_collection w
              ∧ active b = a.
Proof.
  exists (groups (keys (rows d)) self a).
  split; [apply work_list_groups|]. intros w Hw. split.
  - apply elem_of_groups in Hw as (_ & _ & ->).
    etransitivity; apply sublist_filter.
  - intros i Hi.
    destruct (groups_member _ _ _ _ _ Hw Hi) as (_ & b & Hb & ? & ? & ?).
    by exists b.
Qed.

(** Put end to end, the groups [_work_by_index] yields hold every
    existing binding of [self] with the [active] flag asked for, as many
    times as it occurs in [self], and nothing else. *)
Theorem work_list_permutation d self (a : bool) :
  ∃ ws, work_list self a d = Ok ws d
    ∧ ws ≫= w_records ≡ₚ filter (λ i, picked (rows d) a i) self.
Proof.
  exists (groups (keys (rows d)) self a).
  split; [apply work_list_groups | apply groups_records_permutation].
Qed.

End partitioner_more.

(** ** The recompute engine, continued *)
Section recompute_more.

Context {doc : Type} `{!EqDecision doc}.
Context `{!Environment doc} `{!Components doc}.
Implicit Types (d : db doc) (m : gmap Z (binding doc)).
Implicit Types (b : binding doc) (v : vals doc) (e : event doc).
Implicit Types (self ids : list Z) (i j : Z) (force : bool).

(** [recompute_json] returns.  It adds no row and removes none; on the
    rows that are there it changes nothing but [data] and [sync_state]
    ([index_id], [active] and the two dates are as before, also when
    [data] is replaced); and a binding that is not an existing, active
    member of [self] is left as it was. *)
Theorem recompute_json_keeps_the_rest d self force :
  ∃ text d', recompute_json self force d = Ok text d'
    ∧ ∀ i,
        (rows d !! i = None → rows d' !! i = None)
        ∧ ∀ b, rows d !! i = Some b →
            ∃ b', rows d' !! i = Some b'
              ∧ index_id b' = index_id b ∧ active b' = active b
              ∧ date_modified b' = date_modified b
              ∧ date_syncronized b' = date_syncronized b
              ∧ (¬ selected (rows d) self true i → b' = b).
Proof.
  destruct (recompute_json_run d self force) as (es & Hrun & _).
  eexists _, _. split; [exact Hrun|]. intros i. simpl.
  rewrite lookup_on_rows. split; [by intros ->|]. intros b ->. simpl.
  eexists. split; [done|].
  destruct (decide (i ∈ processed (rows d) self)) as [Hi|Hi].
  - rewrite bool_decide_eq_true_2 by done.
    unfold recompute_row, recomputed.
    destruct (rejected i b),
      (bool_decide (data b ≠ candidate i b) || force);
      repeat split; try done;
      intros Hsel; exfalso; by apply Hsel, elem_of_processed.
  - by rewrite bool_decide_eq_false_2.
Qed.

Lemma report_empty m self :
  report m self = "" ↔ ∀ i, i ∈ processed m self → ¬ refused m i.
Proof.
  unfold report, error_lines.
  destruct (filter (λ i, refused m i) (processed m self)) as [|i ids] eqn:Hf.
  - simpl. split; [|done]. intros _ i Hi Hr.
    by apply (filter_nil_not_elem_of _ _ _ Hf Hr).
  - simpl. split; [done|]. intros Hnone. exfalso.
    assert (Hi : i ∈ filter (λ i, refused m i) (processed m self))
      by (rewrite Hf; apply list_elem_of_here).
    apply list_elem_of_filter in Hi as [Hr Hi]. by apply (Hnone i).
Qed.

(** The report of [recompute_json] is the empty text exactly when the
    validator refuses the candidate of no existing, active binding of
    [self]. *)
Theorem recompute_json_report_empty_iff d self force :
  ∃ text d', recompute_json self force d = Ok text d'
    ∧ (text = ""
       ↔ ∀ i b, i ∈ self → rows d !! i = Some b → active b = true →
           truthy (validate_record (backend_id (index_id b))
                     (map_record (lang_code (index_id b)) i)) = false).
Proof.
  destruct (recompute_json_run d self force) as (es & Hrun & _).
  eexists _, _. split; [exact Hrun|]. rewrite report_empty. split.
  - intros Hnone i b Hi Hb Hact.
    pose proof (Hnone i (proj2 (elem_of_processed _ _ _)
                           (selected_here _ _ _ _ Hi Hb Hact))) as Hr.
    rewrite (refused_eq _ _ _ Hb) in Hr.
    by apply Is_true_false in Hr.
  - intros Hall i [Hi (b & Hb & Hact)]%elem_of_processed.
    rewrite (refused_eq _ _ _ Hb). apply Is_true_false.
    by apply Hall.
Qed.

(** After [recompute_json], [get_export_data] on an existing, active
    binding of [self] whose candidate the validator accepts returns that
    candidate: what the mapper gives for the binding under the language
    of its index. *)
Theorem recompute_then_get_export_data d self force i b :
  i ∈ self → rows d !! i = Some b → active b = true →
  rejected i b = false →
  ∃ text d', recompute_json self force d = Ok text d'
    ∧ get_export_data [i] d'
      = Ok (map_record (lang_code (index_id b)) i) d'.
Proof.
  intros Hi Hb Hact Hrej.
  destruct (recompute_json_run d self force) as (es & Hrun & _).
  eexists _, _. split; [exact Hrun|].
  unfold get_export_data. erewrite bind_Ok; last first.
  { apply read_Some. simpl.
    apply (lookup_recompute_json_rows _ _ _ _ _ Hb).
    by apply selected_here with b. }
  unfold ret. f_equal. unfold recompute_row. rewrite Hrej.
  by apply recomputed_data.
Qed.

Lemma recompute_json_quiet d self force es :
  recompute_json self force d
  = Ok (report (rows d) self)
       (Db (on_rows (processed (rows d) self) (recompute_row force) (rows d))
           (journal d ++ es ++ quarantine_events (rows d) self)) →
  es = [] →
  (∀ i b, i ∈ processed (rows d) self → rows d !! i = Some b →
     rejected i b = false ∧ recomputed force i b = b) →
  recompute_json self force d = Ok "" d.
Proof.
  intros Hrun -> Hsame. rewrite Hrun.
  assert (Hnone : ∀ i, i ∈ processed (rows d) self → ¬ refused (rows d) i).
  { intros i Hi. pose proof Hi as [_ (b & Hb & _)]%elem_of_processed.
    rewrite (refused_eq _ _ _ Hb). apply Is_true_false.
    by apply (Hsame i b). }
  rewrite (proj2 (report_empty _ _) Hnone).
  unfold quarantine_events, quarantined. rewrite (filter_none _ _ Hnone).
  simpl. rewrite app_nil_r.
  replace (on_rows (processed (rows d) self) (recompute_row force) (rows d))
    with (rows d); [by destruct d|].
  apply map_eq. intros i. rewrite lookup_on_rows.
  destruct (rows d !! i) as [b|] eqn:Hb; [|done]. simpl. f_equal.
  case_bool_decide as Hi; [|done].
  destruct (Hsame i b Hi Hb) as [Hrej Hrec].
  unfold recompute_row. by rewrite Hrej.
Qed.

Lemma recompute_json_none_selected d self force :
  (∀ i b, i ∈ self → rows d !! i = Some b → active b = false) →
  recompute_json self force d = Ok "" d.
Proof.
  intros Hnone.
  assert (Hp : processed (rows d) self = []).
  { destruct (processed (rows d) self) as [|i ids] eqn:Hp; [done|].
    assert (Hi : i ∈ processed (rows d) self)
      by (rewrite Hp; apply list_elem_of_here).
    apply elem_of_processed in Hi as [Hi (b & Hb & Hact)].
    by rewrite (Hnone i b Hi Hb) in Hact. }
  destruct (recompute_json_run d self force)
    as (es & Hrun & _ & _ & Hshape & _).
  apply (recompute_json_quiet d self force es Hrun).
  - destruct es as [|e es]; [done|].
    apply Forall_cons in Hshape as [(i & ? & ? & Hi & _) _].
    rewrite Hp in Hi. by apply not_elem_of_nil in Hi.
  - intros i b Hi. rewrite Hp in Hi. by apply not_elem_of_nil in Hi.
Qed.

(** When no binding of [self] exists and is active (the set is empty,
    or holds only inactive or deleted bindings), [recompute_json] makes
    no write and leaves the transaction as it found it, forced or not;
    its report is empty. *)
Theorem recompute_json_skips_others d self force :
  (∀ i b, i ∈ self → rows d !! i = Some b → active b = false) →
  recompute_json self force d = Ok "" d.
Proof. apply recompute_json_none_selected. Qed.

(** An unforced [recompute_json] over bindings that are up to date
    (every existing, active binding of [self] has an accepted candidate
    equal to its [data]) makes no write and leaves the transaction as it
    found it, whatever the [sync_state] of those bindings: a binding in
    state [new] or [to_be_checked] stays there. *)
Theorem recompute_json_unforced_noop d self :
  (∀ i b, i ∈ self → rows d !! i = Some b → active b = true →
     rejected i b = false ∧ data b = map_record (lang_code (index_id b)) i) →
  recompute_json self false d = Ok "" d.
Proof.
  intros Hsame.
  assert (Hsame' : ∀ i b, i ∈ processed (rows d) self →
    rows d !! i = Some b → rejected i b = false ∧ data b = candidate i b).
  { intros i b [Hi (b' & Hb' & Hact)]%elem_of_processed Hb.
    rewrite Hb in Hb'. injection Hb' as <-. by apply Hsame. }
  destruct (recompute_json_run d self false)
    as (es & Hrun & _ & _ & _ & Hquiet & _).
  apply (recompute_json_quiet d self false es Hrun).
  - apply Hquiet; [done|]. intros i b Hi Hb _. by apply (Hsame' i b).
  - intros i b Hi Hb. destruct (Hsame' i b Hi Hb) as [Hrej Hdata].
    split; [done|]. unfold recomputed. rewrite Hrej, orb_false_r.
    by rewrite bool_decide_eq_false_2 by (intros Hne; by apply Hne).
Qed.

End recompute_more.

(** ** The synchronizer, continued *)
Section synchronizer_more.

Context {doc : Type} `{!EqDecision doc}.
Context `{!Environment doc} `{!Components doc}.
Implicit Types (d : db doc) (m : gmap Z (binding doc)).
Implicit Types (self ids : list Z) (i : Z) (w : work) (u : usage).
Implicit Types (run : work → gmap Z (binding doc)
                      → exn + gmap Z (binding doc)).

(** A set with an existing record gives at least one group, whatever the
    [active] flag asked for. *)
Lemma groups_nonempty m self (a : bool) i :
  i ∈ self → is_Some (m !! i) →
  ∃ w ws, groups (keys m) self a = w :: ws.
Proof.
  intros Hi Hex. apply keys_is_Some in Hex.
  destruct (groups (keys m) self a) as [|w ws] eqn:Hg; [|by eauto].
  exfalso. apply (not_elem_of_nil
    (Work (backend_id (index_of (keys m) i)) (index_of (keys m) i)
       (filter (λ j, in_group (keys m) (backend_id (index_of (keys m) i))
                       (index_of (keys m) i) a j)
          (filter (λ j, is_Some (keys m !! j)) self)))).
  rewrite <- Hg. apply elem_of_groups. simpl.
  split; [by exists i|]. split; [by exists i|done].
Qed.

Lemma failing_pass_keeps_keys u run (e : exn) :
  (∀ w m, run w m = inl e) →
  keeps_keys (λ w ids, bind (run_component u run w)
                         (λ _, ret (ids ++ w_records w))).
Proof.
  intros Hrun w ids d ids' d'. unfold bind, run_component.
  by rewrite Hrun.
Qed.

Lemma failing_pass u run (e : exn) w (ws : list work) ids d :
  (∀ w m, run w m = inl e) →
  for_each (w :: ws) (λ w ids, bind (run_component u run w)
                                 (λ _, ret (ids ++ w_records w))) ids d
  = Raise e (Db (rows d) (journal d ++ [ComponentRun u w])).
Proof.
  intros Hrun. simpl. unfold bind, run_component. by rewrite Hrun.
Qed.

(** An exporter that fails (the backend cannot be reached) makes
    [synchronize] fail with the same exception on the first group, and
    the deleter is not run at all.  One existing binding in [self] is
    enough for that, active or not: the export pass visits the groups of
    inactive bindings too, with no record in them. *)
Theorem synchronize_exporter_failure d self (e : exn) i :
  (∀ w m, exporter_run w m = inl e) →
  i ∈ self → is_Some (rows d !! i) →
  ∃ w, synchronize self d
       = Raise e (Db (rows d)
                     (journal d ++ [ComponentRun se_record_exporter w])).
Proof.
  intros Hfail Hi Hex.
  destruct (groups_nonempty (rows d) self true i Hi Hex) as (w & ws & Hg).
  exists w. unfold synchronize. apply bind_Raise.
  rewrite _work_by_index_groups by by eapply failing_pass_keeps_keys.
  rewrite Hg. by apply failing_pass.
Qed.


Lemma picked_either m i :
  picked m true i ∨ picked m false i ↔ is_Some (m !! i).
Proof.
  unfold picked. destruct (m !! i) as [b|]; simpl.
  - rewrite !bool_decide_spec. split; [by eexists|].
    intros _. destruct (active b); auto.
  - split; [by intros [[]|[]]|by intros [? ?]].
Qed.

(** With an exporter and a deleter that do their work, [synchronize]
    leaves no existing binding of [self] out and takes none twice: the
    groups it runs the exporter on and the groups it runs the deleter
    on, as the journal and the table it leaves show them, together hold
    every existing binding of [self] as many times as it occurs in
    [self], no binding is in both, and the two lists of the report are
    the records of these groups and no others. *)
Theorem synchronize_covers_every_binding d self :
  well_behaved exporter_run → well_behaved deleter_run →
  ∃ d' exported deleted m,
    synchronize self d
    = Ok ("Exported ids : " +:+ repr_ids (exported ≫= w_records) +:+ nl
            +:+ "Deleted ids : " +:+ repr_ids (deleted ≫= w_records)) d'
    ∧ journal d'
      = journal d ++ (ComponentRun se_record_exporter <$> exported)
          ++ (ComponentRun record_exporter_deleter <$> deleted)
    ∧ run_groups exporter_run exported (rows d) = inr m
    ∧ run_groups deleter_run deleted m = inr (rows d')
    ∧ (exported ≫= w_records) ++ (deleted ≫= w_records)
      ≡ₚ filter (λ i, is_Some (rows d !! i)) self
    ∧ (∀ i, i ∈ exported ≫= w_records → i ∉ deleted ≫= w_records)
    ∧ (∀ export_ids delete_ids d'',
         synchronize self d
         = Ok ("Exported ids : " +:+ repr_ids export_ids +:+ nl
                 +:+ "Deleted ids : " +:+ repr_ids delete_ids) d'' →
         export_ids ++ delete_ids
         ≡ₚ filter (λ i, is_Some (rows d !! i)) self
         ∧ ∀ i, i ∈ export_ids → i ∉ delete_ids).
Proof.
  intros Hexp Hdel.
  destruct (synchronize_passes d self Hexp Hdel)
    as (d' & m & Hrun & Hj & Hrows1 & Hrows2).
  assert (Hdisj : ∀ i, i ∈ groups (keys (rows d)) self true ≫= w_records →
                       i ∉ groups (keys (rows d)) self false ≫= w_records).
  { intros i [_ (b & Hb & Hact)]%elem_of_group_records
      [_ (b' & Hb' & Hact')]%elem_of_group_records.
    congruence. }
  assert (Hperm : (groups (keys (rows d)) self true ≫= w_records)
                    ++ (groups (keys (rows d)) self false ≫= w_records)
                  ≡ₚ filter (λ i, is_Some (rows d !! i)) self).
  { rewrite !groups_records_permutation, <- filter_split.
    - erewrite (list_filter_iff _ (λ i, is_Some (rows d !! i))); [done|].
      intros i. apply picked_either.
    - intros i. unfold picked. destruct (rows d !! i) as [b|]; simpl; [|done].
      rewrite !bool_decide_spec. congruence. }
  exists d', (groups (keys (rows d)) self true),
    (groups (keys (rows d)) self false), m.
  split; [exact Hrun|]. split; [exact Hj|]. split; [exact Hrows1|].
  split; [exact Hrows2|]. split; [exact Hperm|]. split; [exact Hdisj|].
  intros export_ids delete_ids d'' Hrun'.
  destruct (synchronize_report_ids _ _ _ _ _ _ _ _ Hrun Hrun') as [-> ->].
  split; [exact Hperm|exact Hdisj].
Qed.

End synchronizer_more.

(** ** Delayed recomputation and creation *)
Section dispatch_facts.

Context {doc : Type} `{!EqDecision doc}.
Context `{!Environment doc} `{!Components doc} `{!Model}.
Implicit Types (d : db doc) (m : gmap Z (binding doc)).
Implicit Types (b : binding doc) (v : vals doc).
Implicit Types (self ids : list Z) (i : Z) (force : bool).
Implicit Types (queue : list job) (j : job).

Lemma jobify_app self force queue :
  jobify_recompute_json self force queue
  = queue ++ ((λ i, Job ("Recompute " +:+ _name
                           +:+ " json and check if need update") i force)
                <$> self).
Proof.
  unfold jobify_recompute_json. revert queue.
  induction self as [|i self IH]; intros queue; simpl.
  - by rewrite app_nil_r.
  - rewrite IH. by rewrite <- app_assoc.
Qed.

Lemma job_records description force self :
  job_record <$> ((λ i, Job description i force) <$> self) = self.
Proof. induction self as [|i self IH]; simpl; [done|by f_equal]. Qed.

Lemma on_rows_ext ids ids' (f : Z → binding doc → binding doc) m :
  (∀ i, i ∈ ids ↔ i ∈ ids') → on_rows ids f m = on_rows ids' f m.
Proof.
  intros Hids. apply map_eq. intros i. rewrite !lookup_on_rows.
  destruct (m !! i) as [b|]; [|done]. simpl.
  by rewrite (bool_decide_ext _ _ (Hids i)).
Qed.

Lemma selected_picked m self (a : bool) i :
  selected m self a i ↔ i ∈ self ∧ picked m a i.
Proof.
  unfold selected, picked. destruct (m !! i) as [b|]; simpl.
  - rewrite bool_decide_spec. split.
    + by intros [? (? & [= <-] & ?)].
    + intros [? ?]. split; [done|]. by exists b.
  - split; [by intros [_ (? & ? & _)]|by intros [_ ?]].
Qed.

Lemma processed_members m self i :
  i ∈ processed m self ↔ i ∈ filter (λ i, picked m true i) self.
Proof.
  rewrite elem_of_processed, selected_picked, list_elem_of_filter. tauto.
Qed.

(** The rows after one delayed call, in terms of the table [m] at the
    start of the whole run. *)
Lemma run_job_rows m force (seen : list Z) i description d :
  rows d = on_rows (filter (λ i, picked m true i) seen)
             (recompute_row force) m →
  ∃ text d', run_job (Job description i force) d = Ok text d'
    ∧ rows d' = on_rows (filter (λ i, picked m true i) (seen ++ [i]))
                  (recompute_row force) m.
Proof.
  intros Hrows. unfold run_job. simpl.
  destruct (recompute_json_run d [i] force) as (es & Hrun & _).
  eexists _, _. split; [exact Hrun|]. simpl.
  assert (Hk : keys (rows d) = keys m).
  { rewrite Hrows. apply keys_on_rows. intros ? ?. apply recompute_row_key. }
  unfold processed. rewrite Hk. fold (processed m [i]).
  rewrite (on_rows_ext _ _ _ _ (processed_members m [i])).
  rewrite Hrows, filter_app, filter_cons, filter_nil.
  destruct (decide (picked m true i)).
  - apply on_rows_snoc. intros ?. apply recompute_row_idemp.
  - by rewrite on_rows_nil, app_nil_r.
Qed.

(** Dispatching the recomputation of [self] as delayed calls and
    performing them one after the other, in the order of the queue,
    leaves every binding as one call of [recompute_json] on the whole of
    [self] does; there is one delayed call, hence one report, per record
    of [self]. *)
Theorem jobs_equal_batch d self force :
  ∃ texts d1 text d2,
    run_jobs (jobify_recompute_json self force []) d = Ok texts d1
    ∧ recompute_json self force d = Ok text d2
    ∧ rows d1 = rows d2
    ∧ length texts = length self.
Proof.
  destruct (recompute_json_run d self force) as (es & Hrun & _).
  rewrite jobify_app, app_nil_l.
  set (description := "Recompute " +:+ _name
                        +:+ " json and check if need update").
  set (I := λ (pre : list job) (texts : list string) d',
         rows d'
         = on_rows (filter (λ i, picked (rows d) true i) (job_record <$> pre))
             (recompute_row force) (rows d)
         ∧ length texts = length pre).
  assert (Hstep : ∀ pre j texts d',
    j ∈ (λ i, Job description i force) <$> self → I pre texts d' →
    ∃ texts' d'', bind (run_job j) (λ text, ret (texts ++ [text])) d'
                  = Ok texts' d''
      ∧ I (pre ++ [j]) texts' d'').
  { intros pre j texts d' (i & -> & _)%list_elem_of_fmap [Hrows Hlen].
    destruct (run_job_rows (rows d) force (job_record <$> pre) i
                description d' Hrows) as (text & d'' & Hjob & Hrows').
    exists (texts ++ [text]), d''.
    split; [by rewrite (bind_Ok _ _ _ _ _ Hjob)|].
    unfold I. rewrite fmap_app, !length_app, Hlen. by split. }
  assert (Hstart : I [] [] d) by (split; [by rewrite on_rows_nil|done]).
  destruct (for_each_inv I _ _ Hstep [] [] d Hstart)
    as (texts & d1 & Hjobs & Hrows & Hlen).
  exists texts, d1. eexists _, _. split; [exact Hjobs|].
  split; [exact Hrun|]. split.
  - rewrite Hrows. simpl. rewrite job_records. symmetry.
    apply on_rows_ext, processed_members.
  - rewrite Hlen. simpl. by rewrite length_fmap.
Qed.

(** The row [create] inserts for a dictionary. *)
Lemma create_run new_id v index d queue :
  v_index_id v = Some index → rows d !! new_id = None →
  create new_id v d queue
  = Some (new_id,
          Db (<[new_id :=
                  Binding index (default new (v_sync_state v))
                    (default None (v_date_modified v))
                    (default None (v_date_syncronized v))
                    (default data_null (v_data v))
                    (default true (v_active v))]> (rows d)) (journal d),
          queue ++ [Job ("Recompute " +:+ _name
                           +:+ " json and check if need update")
                      new_id false]).
Proof.
  intros Hidx Hnew. unfold create, orm_create. rewrite Hidx, Hnew.
  by rewrite jobify_app.
Qed.

(** A binding created without a [sync_state] of its own can be deleted
    at once; the table is then the one before the creation, and the
    delayed recomputation [create] had queued for it, when its turn
    comes, finds nothing to do. *)
Theorem create_then_unlink new_id v index d queue :
  v_index_id v = Some index → rows d !! new_id = None →
  v_sync_state v = None →
  ∃ d1 j d2,
    create new_id v d queue = Some (new_id, d1, queue ++ [j])
    ∧ unlink [new_id] d1 = Ok true d2
    ∧ rows d2 = rows d
    ∧ run_job j d2 = Ok "" d2.
Proof.
  intros Hidx Hnew Hst. eexists _, _, _.
  split; [by apply create_run|]. split; [|split].
  - apply unlink_Ok. constructor; [|done]. eexists. split.
    + simpl. apply lookup_insert_eq.
    + left. simpl. by rewrite Hst.
  - simpl. by apply delete_insert_id.
  - unfold run_job. simpl. apply recompute_json_none_selected.
    intros i b ->%list_elem_of_singleton. simpl.
    by rewrite (delete_insert_id _ _ _ Hnew), Hnew.
Qed.

(** [create] queues one unforced recomputation, for the new binding.
    When it is performed on an active binding just created, the binding
    ends [to_be_checked] with the [data] it was created with if the
    validator refuses its candidate; otherwise it holds the candidate,
    and is [to_update] if that differs from the [data] it was created
    with, and untouched (still [new], by default) if not. *)
Theorem create_then_recompute new_id v index d queue :
  v_index_id v = Some index → rows d !! new_id = None →
  v_active v ≠ Some false →
  ∃ d1 j text d2 b1 b2,
    create new_id v d queue = Some (new_id, d1, queue ++ [j])
    ∧ job_record j = new_id ∧ job_force_export j = false
    ∧ rows d1 !! new_id = Some b1
    ∧ sync_state b1 = default new (v_sync_state v)
    ∧ data b1 = default data_null (v_data v)
    ∧ run_job j d1 = Ok text d2
    ∧ rows d2 !! new_id = Some b2
    ∧ (rejected new_id b1 = true →
         sync_state b2 = to_be_checked ∧ data b2 = data b1)
    ∧ (rejected new_id b1 = false →
         data b2 = map_record (lang_code index) new_id
         ∧ (data b1 ≠ data b2 → sync_state b2 = to_update)
         ∧ (data b1 = data b2 → b2 = b1)).
Proof.
  intros Hidx Hnew Hact.
  set (b1 := Binding index (default new (v_sync_state v))
               (default None (v_date_modified v))
               (default None (v_date_syncronized v))
               (default data_null (v_data v)) (default true (v_active v))).
  set (d1 := Db (<[new_id := b1]> (rows d)) (journal d)).
  assert (Hb1 : rows d1 !! new_id = Some b1) by apply lookup_insert_eq.
  assert (Hsel : selected (rows d1) [new_id] true new_id).
  { split; [apply list_elem_of_here|]. exists b1. split; [done|].
    simpl. by destruct (v_active v) as [[]|]. }
  destruct (recompute_json_run d1 [new_id] false) as (es & Hrun & _).
  exists d1. eexists _, _, _, b1, _.
  split; [by apply create_run|]. do 5 (split; [done|]).
  split; [exact Hrun|]. split.
  { simpl. apply (lookup_recompute_json_rows _ _ _ _ _ Hb1 Hsel). }
  unfold recompute_row. split.
  - intros ->. done.
  - intros Hrej. rewrite Hrej.
    pose proof (recomputed_data false new_id b1 Hrej) as Hdata.
    split; [exact Hdata|]. rewrite Hdata.
    unfold recomputed. rewrite Hrej, orb_false_r. split.
    + intros Hne. by rewrite bool_decide_eq_true_2.
    + intros Heq. by rewrite bool_decide_eq_false_2 by (intros Hne; by apply Hne).
Qed.

End dispatch_facts.

(** ** Further runs on the sample installation *)

Lemma write_without_deactivation_witness :
  (∀ i, i ∈ [3; 4] → is_Some (rows Sample.start !! i))
  ∧ Some true ≠ Some false
  ∧ ∃ d', write [3; 4] (Vals None None None None None (Some true))
            Sample.start = Ok true d'
      ∧ rows d' !! 4 = Some (Binding 20 to_update None None "d" true).
Proof.
  assert (Hex : ∀ i, i ∈ [3; 4] → is_Some (rows Sample.start !! i)).
  { apply sample_exists. repeat constructor. }
  assert (Hv : Some true ≠ Some false) by discriminate.
  split; [exact Hex|]. split; [exact Hv|].
  destruct (write_without_deactivation Sample.start [3; 4]
              (Vals None None None None None (Some true)) Hex Hv)
    as (d' & Hw & _ & Hrows & _).
  exists d'. split; [exact Hw|].
  apply (Hrows 4 (Binding 20 to_update None None "d" false)); [|done].
  apply list_elem_of_further, list_elem_of_here.
Defined.

Lemma write_frame_witness :
  (∀ i, i ∈ [1; 2] → is_Some (rows Sample.start !! i))
  ∧ ∃ d', write [1; 2] (Vals None None None None None (Some false))
            Sample.start = Ok true d'
      ∧ (∀ i, i ∉ [1; 2] → rows d' !! i = rows Sample.start !! i)
      ∧ (∀ i, is_Some (rows d' !! i) ↔ is_Some (rows Sample.start !! i)).
Proof.
  assert (Hex : ∀ i, i ∈ [1; 2] → is_Some (rows Sample.start !! i)).
  { apply sample_exists. repeat constructor. }
  split; [exact Hex|].
  exact (write_frame Sample.start [1; 2]
           (Vals None None None None None (Some false)) Hex).
Defined.

Lemma write_deactivation_two_calls_witness :
  (∀ i, i ∈ [1; 2] → is_Some (rows Sample.start !! i))
  ∧ ∃ d' not_new rest,
      write [1; 2] (Vals None None None None None (Some false))
        Sample.start = Ok true d'
      ∧ journal d'
        = journal Sample.start
            ++ [OrmWrite not_new
                  (Vals None (Some to_update) None None None (Some false));
                OrmWrite rest (Vals None None None None None (Some false))]
      ∧ (∀ i, i ∈ not_new
              ↔ i ∈ [1; 2] ∧ ∃ b, rows Sample.start !! i = Some b
                                  ∧ sync_state b ≠ new)
      ∧ (∀ i, i ∈ rest
              ↔ i ∈ [1; 2] ∧ ∃ b, rows Sample.start !! i = Some b
                                  ∧ sync_state b = new).
Proof.
  assert (Hex : ∀ i, i ∈ [1; 2] → is_Some (rows Sample.start !! i)).
  { apply sample_exists. repeat constructor. }
  split; [exact Hex|].
  exact (write_deactivation_two_calls Sample.start [1; 2]
           (Vals None None None None None (Some false)) Hex eq_refl).
Defined.

Lemma deactivated_cannot_be_unlinked_witness :
  (∀ j, j ∈ [1; 2] → is_Some (rows Sample.start !! j))
  ∧ 1 ∈ [1; 2]
  ∧ rows Sample.start !! 1 = Some (Binding 10 done None None "a" true)
  ∧ ∃ d', write [1; 2] (Vals None None None None None (Some false))
            Sample.start = Ok true d'
      ∧ unlink [1] d'
        = Raise (UserError "You cannot delete the binding 'binding 1', wait until it's synchronized.") d'.
Proof.
  assert (Hex : ∀ j, j ∈ [1; 2] → is_Some (rows Sample.start !! j)).
  { apply sample_exists. repeat constructor. }
  assert (Hin : 1 ∈ [1; 2]) by apply list_elem_of_here.
  split; [exact Hex|]. split; [exact Hin|]. split; [reflexivity|].
  assert (Hst : sync_state (Binding 10 done None None "a" true) ≠ new)
    by discriminate.
  destruct (deactivated_cannot_be_unlinked Sample.start [1; 2]
              (Vals None None None None None (Some false)) 1
              (Binding 10 done None None "a" true) Hex Hin eq_refl Hst
              eq_refl) as (d' & Hw & Hu & _).
  exists d'. split; [exact Hw|exact Hu].
Defined.

Lemma deactivated_new_can_be_unlinked_witness :
  (∀ j, j ∈ [1; 2] → is_Some (rows Sample.start !! j))
  ∧ 2 ∈ [1; 2]
  ∧ rows Sample.start !! 2 = Some (Binding 20 new None None "b" true)
  ∧ ∃ d' d'', write [1; 2] (Vals None None None None None (Some false))
                Sample.start = Ok true d'
      ∧ unlink [2] d' = Ok true d''
      ∧ rows d'' !! 2 = None
      ∧ ∀ j, j ≠ 2 → rows d'' !! j = rows d' !! j.
Proof.
  assert (Hex : ∀ j, j ∈ [1; 2] → is_Some (rows Sample.start !! j)).
  { apply sample_exists. repeat constructor. }
  assert (Hin : 2 ∈ [1; 2])
    by apply list_elem_of_further, list_elem_of_here.
  split; [exact Hex|]. split; [exact Hin|]. split; [reflexivity|].
  exact (deactivated_new_can_be_unlinked Sample.start [1; 2]
           (Vals None None None None None (Some false)) 2
           (Binding 20 new None None "b" true) Hex Hin eq_refl eq_refl
           eq_refl eq_refl).
Defined.

Lemma unlink_frame_witness :
  unlink [2; 3] Sample.start
  = Ok true (Db (delete 2 (delete 3 Sample.table)) [OrmUnlink [2; 3]])
  ∧ journal (Db (delete 2 (delete 3 Sample.table)) [OrmUnlink [2; 3]])
    = journal Sample.start ++ [OrmUnlink [2; 3]]
  ∧ ∀ i, i ∉ [2; 3] →
      rows (Db (delete 2 (delete 3 Sample.table)) [OrmUnlink [2; 3]]) !! i
      = rows Sample.start !! i.
Proof.
  assert (Hu : unlink [2; 3] Sample.start
               = Ok true (Db (delete 2 (delete 3 Sample.table))
                             [OrmUnlink [2; 3]])) by reflexivity.
  split; [exact Hu|].
  exact (unlink_frame Sample.start [2; 3] _ Hu).
Defined.

Lemma recompute_then_get_export_data_witness :
  1 ∈ [1; 2]
  ∧ rows Sample.start !! 1 = Some (Binding 10 done None None "a" true)
  ∧ rejected 1 (Binding 10 done None None "a" true) = false
  ∧ ∃ text d', recompute_json [1; 2] false Sample.start = Ok text d'
      ∧ get_export_data [1] d' = Ok "doc" d'.
Proof.
  assert (Hin : 1 ∈ [1; 2]) by apply list_elem_of_here.
  assert (Hrej : rejected 1 (Binding 10 done None None "a" true) = false)
    by reflexivity.
  split; [exact Hin|]. split; [reflexivity|]. split; [exact Hrej|].
  exact (recompute_then_get_export_data Sample.start [1; 2] false 1
           (Binding 10 done None None "a" true) Hin eq_refl eq_refl Hrej).
Defined.

Lemma sample_inactive :
  ∀ i b, i ∈ [3; 4; 7] → rows Sample.start !! i = Some b → active b = false.
Proof.
  intros i b Hi.
  repeat (apply elem_of_cons in Hi as [->|Hi]; [by intros [= <-]|]).
  by apply not_elem_of_nil in Hi.
Qed.

Lemma recompute_json_skips_others_witness :
  (∀ i b, i ∈ [3; 4; 7] → rows Sample.start !! i = Some b →
     active b = false)
  ∧ recompute_json [3; 4; 7] true Sample.start = Ok "" Sample.start.
Proof.
  split; [exact sample_inactive|].
  exact (recompute_json_skips_others Sample.start [3; 4; 7] true
           sample_inactive).
Defined.

Lemma settled_up_to_date :
  ∀ i b, i ∈ [5] → Sample.settled_table !! i = Some b → active b = true →
    rejected i b = false ∧ data b = map_record (lang_code (index_id b)) i.
Proof. by intros i b ->%list_elem_of_singleton [= <-] _. Qed.

Lemma recompute_json_unforced_noop_witness :
  (∀ i b, i ∈ [5] → Sample.settled_table !! i = Some b → active b = true →
     rejected i b = false ∧ data b = map_record (lang_code (index_id b)) i)
  ∧ recompute_json [5] false (Db Sample.settled_table [])
    = Ok "" (Db Sample.settled_table []).
Proof.
  split; [exact settled_up_to_date|].
  exact (recompute_json_unforced_noop (Db Sample.settled_table []) [5]
           settled_up_to_date).
Defined.

Lemma synchronize_exporter_failure_witness :
  (∀ w m, exporter_run (Components := Sample.exporter_down) w m
          = inl (BackendError "connection refused"))
  ∧ 3 ∈ [3; 4]
  ∧ is_Some (rows Sample.start !! 3)
  ∧ ∃ w, synchronize (H0 := Sample.exporter_down) [3; 4] Sample.start
         = Raise (BackendError "connection refused")
             (Db (rows Sample.start)
                 (journal Sample.start
                  ++ [ComponentRun se_record_exporter w])).
Proof.
  assert (Hdown : ∀ w m, exporter_run (Components := Sample.exporter_down) w m
                         = inl (BackendError "connection refused"))
    by reflexivity.
  assert (Hin : 3 ∈ [3; 4]) by apply list_elem_of_here.
  assert (Hex : is_Some (rows Sample.start !! 3)) by by eexists.
  split; [exact Hdown|]. split; [exact Hin|]. split; [exact Hex|].
  exact (synchronize_exporter_failure (Components0 := Sample.exporter_down)
           Sample.start [3; 4] _ 3 Hdown Hin Hex).
Defined.


Lemma synchronize_covers_every_binding_witness :
  well_behaved Sample.mark_done
  ∧ ∃ d' exported deleted m,
      synchronize [4; 1; 7; 3; 2] Sample.start
      = Ok ("Exported ids : " +:+ repr_ids (exported ≫= w_records) +:+ nl
              +:+ "Deleted ids : " +:+ repr_ids (deleted ≫= w_records)) d'
      ∧ journal d'
        = journal Sample.start
            ++ (ComponentRun se_record_exporter <$> exported)
            ++ (ComponentRun record_exporter_deleter <$> deleted)
      ∧ run_groups Sample.mark_done exported (rows Sample.start) = inr m
      ∧ run_groups Sample.mark_done deleted m = inr (rows d')
      ∧ (exported ≫= w_records) ++ (deleted ≫= w_records)
        ≡ₚ filter (λ i, is_Some (rows Sample.start !! i)) [4; 1; 7; 3; 2]
      ∧ (∀ i, i ∈ exported ≫= w_records → i ∉ deleted ≫= w_records)
      ∧ (∀ export_ids delete_ids d'',
           synchronize [4; 1; 7; 3; 2] Sample.start
           = Ok ("Exported ids : " +:+ repr_ids export_ids +:+ nl
                   +:+ "Deleted ids : " +:+ repr_ids delete_ids) d'' →
           export_ids ++ delete_ids
           ≡ₚ filter (λ i, is_Some (rows Sample.start !! i))
                [4; 1; 7; 3; 2]
           ∧ ∀ i, i ∈ export_ids → i ∉ delete_ids).
Proof.
  split; [exact mark_done_well_behaved|].
  exact (synchronize_covers_every_binding Sample.start [4; 1; 7; 3; 2]
           mark_done_well_behaved mark_done_well_behaved).
Defined.

Lemma create_then_unlink_witness :
  rows Sample.start !! 9 = None
  ∧ ∃ d1 j d2,
      create 9 (Vals (Some 10) None None None None None) Sample.start []
      = Some (9, d1, [] ++ [j])
      ∧ unlink [9] d1 = Ok true d2
      ∧ rows d2 = rows Sample.start
      ∧ run_job j d2 = Ok "" d2.
Proof.
  split; [reflexivity|].
  exact (create_then_unlink 9 (Vals (Some 10) None None None None None) 10
           Sample.start [] eq_refl eq_refl eq_refl).
Defined.

Lemma create_then_recompute_witness :
  rows Sample.start !! 9 = None
  ∧ ∃ d1 j text d2 b2,
      create 9 (Vals (Some 10) None None None None None) Sample.start []
      = Some (9, d1, [] ++ [j])
      ∧ run_job j d1 = Ok text d2
      ∧ rows d2 !! 9 = Some b2
      ∧ data b2 = "doc"
      ∧ sync_state b2 = to_update.
Proof.
  split; [reflexivity|].
  assert (Hact : v_active (Vals (Some 10) None None None (@None string) None)
                 ≠ Some false) by discriminate.
  destruct (create_then_recompute 9
              (Vals (Some 10) None None None None None) 10
              Sample.start [] eq_refl eq_refl Hact)
    as (d1 & j & text & d2 & b1 & b2 & Hc & _ & _ & Hb1 & _ & Hd1 & Hjob
        & Hb2 & _ & Haccepted).
  assert (Hrej : rejected 9 b1 = false).
  { unfold rejected, verdict, candidate. simpl.
    by destruct (lang_code (index_id b1)). }
  destruct (Haccepted Hrej) as (Hdata & Hupd & _).
  exists d1, j, text, d2, b2. repeat split; try done.
  apply Hupd. rewrite Hd1, Hdata. discriminate.
Defined.

(** The delayed calls of a set, performed in turn on the sample: the
    table is the one of the batch call, with one report per record. *)
Example run_jobs_sample :
  ∃ d', run_jobs (jobify_recompute_json [1; 2; 3] false []) Sample.start
        = Ok [""; "Validation errors" +:+ nl +:+ "se.binding(2,): empty"; ""]
             d'
    ∧ rows d' !! 1 = Some (Binding 10 to_update None None "doc" true)
    ∧ rows d' !! 2 = Some (Binding 20 to_be_checked None None "b" true).
Proof. eexists. repeat split; vm_compute; reflexivity. Qed.
